(** * Contract calculator of crypto_futures_calc

    A shallow embedding of the calculator core of
    [client/src/lib/encryption.ts]: [calculateContract] and the two inverse
    solvers [calculateLeverageFromLiquidationPrice] and
    [calculateLeverageFromRiskPercentage].

    The TypeScript code computes on [number].  The functions are written once,
    over an interface [Number] holding exactly the operations the source
    applies to a [number], and read at two instances:
    - [Binary64]: IEEE 754 binary64 with round-to-nearest-even, the
      [number] of the running program (Rocq's primitive floats);
    - [Ideal]: the real numbers, the exact arithmetic the formulas are
      stated in.  The reals have no rounding, no overflow and no
      counterpart of [Infinity] and [NaN]: an identity proved under [Ideal]
      is met by the running program up to rounding only, and what the code
      returns bit for bit, on overflow, on a zero divisor and on [NaN] is
      settled under [Binary64].

    Around the calculator the file also embeds the key obfuscation of the
    same source file ([simpleEncrypt], [simpleDecrypt],
    [getLocalEncryptionKey], [getMaskedApiKey]) over strings of UTF-16 code
    units, the cached lookups of [server/binance.ts] with their procedures
    of [server/routers.ts] as explicit state passing, and the totals of the
    comparison panel that calls the calculator for a list of positions. *)

From Stdlib Require Import Reals Lra Lia ZifyNat ZArith NArith Bool List.
From Stdlib Require Import String Ascii Floats Uint63.

Set Warnings "-inexact-float".

(** ** The operations on [number] the calculator uses *)

Class Number (num : Type) : Type := {
  add : num -> num -> num;
  sub : num -> num -> num;
  mul : num -> num -> num;
  div : num -> num -> num;
  Math_abs : num -> num;
  Math_max : num -> num -> num;
  (** [lit n d] is the decimal literal whose value is [n / d], with [d] a
      power of ten: [0.005] is [lit 5 1000]. *)
  lit : Z -> positive -> num
}.

Declare Scope num_scope.
Delimit Scope num_scope with num.
Infix "+" := add : num_scope.
Infix "-" := sub : num_scope.
Infix "*" := mul : num_scope.
Infix "/" := div : num_scope.

(** [a ?? b]: the left operand unless it is [undefined], modelled as [None].
    A default parameter value ([maintainanceRate: number = 0.005]) is filled
    in the same way. *)
Definition nullish {A : Type} (a : option A) (b : A) : A :=
  match a with
  | Some v => v
  | None => b
  end.

Notation "a ?? b" := (nullish a b) (at level 45, left associativity).

(** ** Data model *)

Inductive MarginMode : Type := isolated | cross.

Inductive PositionType : Type := long | short.

(** [interface ContractParams]; the fields marked [?] are optional. *)
Record ContractParams (num : Type) : Type := mkContractParams {
  openPrice : num;
  margin : num;
  leverage : num;
  marginMode : MarginMode;
  positionType : PositionType;
  maintainanceRate : option num;
  openFee : option num;
  closeFee : option num;
  fundingRate : option num;
  fundingPeriodHours : option num
}.

Arguments mkContractParams {num}.
Arguments openPrice {num}.
Arguments margin {num}.
Arguments leverage {num}.
Arguments marginMode {num}.
Arguments positionType {num}.
Arguments maintainanceRate {num}.
Arguments openFee {num}.
Arguments closeFee {num}.
Arguments fundingRate {num}.
Arguments fundingPeriodHours {num}.

(** [interface CalculationResult]; the last two fields are closures. *)
Record CalculationResult (num : Type) : Type := mkCalculationResult {
  positionSize : num;
  positionSizeInCoin : num;
  liquidationPrice : num;
  liquidationPricePercent : num;
  riskPercentage : num;
  maxLoss : num;
  openFeeAmount : num;
  closeFeeAmount : num;
  totalFeeAmount : num;
  fundingFeePerPeriod : num;
  fundingFeePerDay : num;
  breakEvenPrice : num;
  profitAtPrice : num -> num;
  profitPercentAtPrice : num -> num
}.

Arguments mkCalculationResult {num}.
Arguments positionSize {num}.
Arguments positionSizeInCoin {num}.
Arguments liquidationPrice {num}.
Arguments liquidationPricePercent {num}.
Arguments riskPercentage {num}.
Arguments maxLoss {num}.
Arguments openFeeAmount {num}.
Arguments closeFeeAmount {num}.
Arguments totalFeeAmount {num}.
Arguments fundingFeePerPeriod {num}.
Arguments fundingFeePerDay {num}.
Arguments breakEvenPrice {num}.
Arguments profitAtPrice {num}.
Arguments profitPercentAtPrice {num}.

(** ** The calculator *)

Section Calculator.

Context {num : Type} `{Number num}.

Local Open Scope num_scope.

(** [calculateContract], lines 205-293. *)
Definition calculateContract (params : ContractParams num)
  : CalculationResult num :=
  let maintainanceRate := maintainanceRate params ?? lit 5 1000 in
  let openFeeRate := openFee params ?? lit 2 10000 in
  let closeFeeRate := closeFee params ?? lit 2 10000 in
  let fundingRate := fundingRate params ?? lit 0 1 in
  let fundingPeriodHours := fundingPeriodHours params ?? lit 8 1 in
  let positionSize := margin params * leverage params in
  let positionSizeInCoin := positionSize / openPrice params in
  let openFeeAmount := positionSize * openFeeRate in
  let closeFeeAmount := positionSize * closeFeeRate in
  let totalFeeAmount := openFeeAmount + closeFeeAmount in
  let liquidationPrice :=
    match positionType params with
    | long =>
        openPrice params
        * (lit 1 1 - lit 1 1 / leverage params + maintainanceRate)
    | short =>
        openPrice params
        * (lit 1 1 + lit 1 1 / leverage params - maintainanceRate)
    end in
  let priceChange := Math_abs (liquidationPrice - openPrice params) in
  let riskPercentage := (priceChange / openPrice params) * lit 100 1 in
  let maxLoss := margin params in
  let fundingFeePerPeriod := positionSize * fundingRate in
  let fundingFeePerDay :=
    (fundingFeePerPeriod / fundingPeriodHours) * lit 24 1 in
  let breakEvenPrice :=
    match positionType params with
    | long =>
        openPrice params
        * (lit 1 1 + (totalFeeAmount / positionSize) * lit 11 10)
    | short =>
        openPrice params
        * (lit 1 1 - (totalFeeAmount / positionSize) * lit 11 10)
    end in
  let profitAtPrice := fun price : num =>
    match positionType params with
    | long =>
        (price - openPrice params) * positionSizeInCoin - totalFeeAmount
    | short =>
        (openPrice params - price) * positionSizeInCoin - totalFeeAmount
    end in
  let profitPercentAtPrice := fun price : num =>
    let profit := profitAtPrice price in
    (profit / margin params) * lit 100 1 in
  let liquidationPricePercent :=
    ((liquidationPrice - openPrice params) / openPrice params)
    * lit 100 1 in
  {| positionSize := positionSize;
     positionSizeInCoin := positionSizeInCoin;
     liquidationPrice := liquidationPrice;
     liquidationPricePercent := liquidationPricePercent;
     riskPercentage := riskPercentage;
     maxLoss := maxLoss;
     openFeeAmount := openFeeAmount;
     closeFeeAmount := closeFeeAmount;
     totalFeeAmount := totalFeeAmount;
     fundingFeePerPeriod := fundingFeePerPeriod;
     fundingFeePerDay := fundingFeePerDay;
     breakEvenPrice := breakEvenPrice;
     profitAtPrice := profitAtPrice;
     profitPercentAtPrice := profitPercentAtPrice |}.

(** [calculateLeverageFromLiquidationPrice], lines 298-317.  The last
    argument is [None] when the caller leaves it out. *)
Definition calculateLeverageFromLiquidationPrice
    (openPrice targetLiquidationPrice : num) (positionType : PositionType)
    (maintainanceRate : option num) : num :=
  let maintainanceRate := maintainanceRate ?? lit 5 1000 in
  match positionType with
  | long =>
      let ratio := targetLiquidationPrice / openPrice in
      let leverage := lit 1 1 / (lit 1 1 - ratio + maintainanceRate) in
      Math_max (lit 1 1) leverage
  | short =>
      let ratio := targetLiquidationPrice / openPrice in
      let leverage := lit 1 1 / (ratio - lit 1 1 - maintainanceRate) in
      Math_max (lit 1 1) leverage
  end.

(** [calculateLeverageFromRiskPercentage], lines 322-332. *)
Definition calculateLeverageFromRiskPercentage
    (riskPercentage : num) (positionType : PositionType)
    (maintainanceRate : option num) : num :=
  let maintainanceRate := maintainanceRate ?? lit 5 1000 in
  let leverage :=
    lit 1 1 / (riskPercentage / lit 100 1 + maintainanceRate) in
  Math_max (lit 1 1) leverage.

(** The divisor of the quotient each solver clamps. *)
Definition liquidationDenominator
    (openPrice targetLiquidationPrice : num) (positionType : PositionType)
    (maintainanceRate : option num) : num :=
  let maintainanceRate := maintainanceRate ?? lit 5 1000 in
  let ratio := targetLiquidationPrice / openPrice in
  match positionType with
  | long => lit 1 1 - ratio + maintainanceRate
  | short => ratio - lit 1 1 - maintainanceRate
  end.

Definition riskDenominator
    (riskPercentage : num) (maintainanceRate : option num) : num :=
  riskPercentage / lit 100 1 + (maintainanceRate ?? lit 5 1000).

(** [params] with its [marginMode] replaced. *)
Definition withMarginMode (mode : MarginMode) (params : ContractParams num)
  : ContractParams num :=
  {| openPrice := openPrice params;
     margin := margin params;
     leverage := leverage params;
     marginMode := mode;
     positionType := positionType params;
     maintainanceRate := maintainanceRate params;
     openFee := openFee params;
     closeFee := closeFee params;
     fundingRate := fundingRate params;
     fundingPeriodHours := fundingPeriodHours params |}.

Definition withPositionType (type : PositionType)
    (params : ContractParams num) : ContractParams num :=
  {| openPrice := openPrice params;
     margin := margin params;
     leverage := leverage params;
     marginMode := marginMode params;
     positionType := type;
     maintainanceRate := maintainanceRate params;
     openFee := openFee params;
     closeFee := closeFee params;
     fundingRate := fundingRate params;
     fundingPeriodHours := fundingPeriodHours params |}.

(** Every field but [marginMode] agrees. *)
Definition sameButMarginMode (p q : ContractParams num) : Prop :=
  openPrice p = openPrice q /\ margin p = margin q
  /\ leverage p = leverage q /\ positionType p = positionType q
  /\ maintainanceRate p = maintainanceRate q /\ openFee p = openFee q
  /\ closeFee p = closeFee q /\ fundingRate p = fundingRate q
  /\ fundingPeriodHours p = fundingPeriodHours q.

End Calculator.

(** ** [number] as IEEE 754 binary64 *)

Module Binary64.

Local Open Scope float_scope.

(** An integer literal; every one in the source is below [2^53] and so
    read without rounding. *)
Definition of_Z (z : Z) : float :=
  match z with
  | Z0 => 0
  | Zpos _ => of_uint63 (Uint63.of_Z z)
  | Zneg p => - of_uint63 (Uint63.of_Z (Zpos p))
  end.

(** A decimal literal [n / d] is read as the binary64 value nearest to it,
    which the correctly rounded quotient of the exact [n] and [d] is. *)
Definition literal (n : Z) (d : positive) : float :=
  match d with
  | xH => of_Z n
  | _ => of_Z n / of_Z (Zpos d)
  end.

(** [Math.max] of two numbers (ECMA-262, 21.3.2.24): [NaN] if either is
    [NaN], else the larger, [+0] counting as larger than [-0]. *)
Definition max (a b : float) : float :=
  if is_nan a || is_nan b then nan
  else if a <? b then b
  else if b <? a then a
  else if get_sign a then b else a.

#[global] Instance number : Number float := {|
  add := PrimFloat.add;
  sub := PrimFloat.sub;
  mul := PrimFloat.mul;
  div := PrimFloat.div;
  Math_abs := PrimFloat.abs;
  Math_max := max;
  lit := literal
|}.

(** [a >= b] of the source language, false as soon as one side is [NaN]. *)
Definition geb (a b : float) : bool := b <=? a.

(** The specification-level value [f] is a number of sign [s] ([true] for
    negative), not [NaN]. *)
Definition signed (s : bool) (f : spec_float) : Prop :=
  match f with
  | S754_zero s' | S754_infinity s' | S754_finite s' _ _ => s' = s
  | S754_nan => False
  end.

(** [f] is zero or a finite number: neither [NaN] nor an infinity. *)
Definition finite (f : spec_float) : Prop :=
  match f with
  | S754_zero _ | S754_finite _ _ _ => True
  | _ => False
  end.

(** [f] is [NaN] or a number that is not negative. *)
Definition notNegative (f : spec_float) : Prop :=
  f = S754_nan \/ signed false f.

(** [f] is a number above zero, [Infinity] included. *)
Definition aboveZero (f : spec_float) : Prop :=
  match f with
  | S754_infinity false | S754_finite false _ _ => True
  | _ => False
  end.

End Binary64.

(** ** [number] as an exact real *)

Module Ideal.

Local Open Scope R_scope.

Definition literal (n : Z) (d : positive) : R :=
  match d with
  | xH => IZR n
  | _ => IZR n / IZR (Zpos d)
  end.

#[global] Instance number : Number R := {|
  add := Rplus;
  sub := Rminus;
  mul := Rmult;
  div := Rdiv;
  Math_abs := Rabs;
  Math_max := Rmax;
  lit := literal
|}.

End Ideal.

(** ** The default scenario of the application *)

Definition defaultScenario {num : Type} `{Number num} (type : PositionType)
  : ContractParams num :=
  {| openPrice := lit 60000 1;
     margin := lit 20 1;
     leverage := lit 5 1;
     marginMode := isolated;
     positionType := type;
     maintainanceRate := Some (lit 5 1000);
     openFee := Some (lit 2 10000);
     closeFee := Some (lit 2 10000);
     fundingRate := Some (lit 0 1);
     fundingPeriodHours := None |}.

(** ** Strings of the browser: code units, [btoa] and [atob], base 36 *)

Module JS.

Import ListNotations.

(** A string is its sequence of UTF-16 code units. *)
Definition jsstring : Type := list N.

Definition units (s : string) : jsstring :=
  map N_of_ascii (list_ascii_of_string s).

Definition wellFormed (s : jsstring) : Prop :=
  Forall (fun c => (c < 65536)%N) s.

(** [ToInt32]. *)
Definition toInt32 (z : Z) : Z := ((z + 2 ^ 31) mod 2 ^ 32 - 2 ^ 31)%Z.

Local Open Scope N_scope.

(** [i % len] on array indices: [NaN], here [None], when [len] is 0. *)
Definition rem (i len : N) : option N :=
  if len =? 0 then None else Some (i mod len).

(** [s.charCodeAt(pos)]: a [NaN] position counts as 0, and the result is
    [NaN] outside the string. *)
Definition charCodeAt (s : jsstring) (pos : option N) : option N :=
  nth_error s (N.to_nat (match pos with Some i => i | None => 0 end)).

(** [a ^ b] on code units or [NaN]: [ToInt32] sends [NaN] to 0 and leaves a
    code unit as it is. *)
Definition bitxor (a b : option N) : N :=
  N.lxor (match a with Some x => x | None => 0 end)
         (match b with Some x => x | None => 0 end).

(** [String.fromCharCode(x)], one code unit: [ToUint16]. *)
Definition fromCharCode (x : N) : N := x mod 65536.

(** Base64 (RFC 4648, section 4). *)
Definition base64Char (i : N) : N :=
  if i <? 26 then 65 + i
  else if i <? 52 then 97 + (i - 26)
  else if i <? 62 then 48 + (i - 52)
  else if i =? 62 then 43 else 47.

Definition base64Index (c : N) : option N :=
  if (65 <=? c) && (c <=? 90) then Some (c - 65)
  else if (97 <=? c) && (c <=? 122) then Some (c - 97 + 26)
  else if (48 <=? c) && (c <=? 57) then Some (c - 48 + 52)
  else if c =? 43 then Some 62
  else if c =? 47 then Some 63
  else None.

Fixpoint sextets (bytes : list N) : list N :=
  match bytes with
  | [] => []
  | [a] => [a / 4; (a mod 4) * 16]
  | [a; b] => [a / 4; (a mod 4) * 16 + b / 16; (b mod 16) * 4]
  | a :: b :: c :: rest =>
      a / 4 :: (a mod 4) * 16 + b / 16 :: (b mod 16) * 4 + c / 64
        :: c mod 64 :: sextets rest
  end.

Definition padding (bytes : list N) : jsstring :=
  match N.of_nat (List.length bytes) mod 3 with
  | 0 => []
  | 1 => [61; 61]
  | _ => [61]
  end.

(** [btoa(s)]: throws, here [None], when a code unit is above [0xFF]. *)
Definition btoa (s : jsstring) : option jsstring :=
  if forallb (fun c => c <=? 255) s
  then Some (map base64Char (sextets s) ++ padding s)
  else None.

Definition isAsciiWhitespace (c : N) : bool :=
  (c =? 9) || (c =? 10) || (c =? 12) || (c =? 13) || (c =? 32).

(** Step 2 of the forgiving decoder: one or two trailing [=] go when the
    length is a multiple of 4. *)
Definition stripPadding (data : jsstring) : jsstring :=
  if N.of_nat (List.length data) mod 4 =? 0 then
    match rev data with
    | c1 :: c2 :: r =>
        if c1 =? 61 then if c2 =? 61 then rev r else rev (c2 :: r) else data
    | [c1] => if c1 =? 61 then [] else data
    | [] => data
    end
  else data.

Fixpoint traverse (cs : jsstring) : option (list N) :=
  match cs with
  | [] => Some []
  | c :: r =>
      match base64Index c, traverse r with
      | Some i, Some ixs => Some (i :: ixs)
      | _, _ => None
      end
  end.

Fixpoint octets (sx : list N) : list N :=
  match sx with
  | a :: b :: c :: d :: rest =>
      let n := ((a * 64 + b) * 64 + c) * 64 + d in
      n / 65536 :: (n / 256) mod 256 :: n mod 256 :: octets rest
  | [a; b; c] =>
      let n := ((a * 64 + b) * 64 + c) / 4 in [n / 256; n mod 256]
  | [a; b] => [(a * 64 + b) / 16]
  | _ => []
  end.

(** [atob(data)], the forgiving-base64 decoder of the HTML standard:
    throws, here [None], on a length of 1 modulo 4 or a character outside
    the alphabet. *)
Definition atob (data : jsstring) : option jsstring :=
  let data := filter (fun c => negb (isAsciiWhitespace c)) data in
  let data := stripPadding data in
  if N.of_nat (List.length data) mod 4 =? 1 then None
  else match traverse data with
       | Some sx => Some (octets sx)
       | None => None
       end.

(** The code units [btoa] accepts. *)
Definition bytes (s : jsstring) : Prop := Forall (fun c => c <= 255) s.

(** [i] encodes to a character that decodes to [i], is no white space and
    is not the padding character. *)
Definition sextetOk (i : N) : bool :=
  match base64Index (base64Char i) with
  | Some j => (j =? i) && negb (isAsciiWhitespace (base64Char i))
              && negb (base64Char i =? 61)
  | None => false
  end.

(** [n.toString(36)] for a non-negative integer [n]. *)
Definition digitChar (d : N) : N := if d <? 10 then 48 + d else 97 + (d - 10).

Fixpoint digits36 (fuel : nat) (n : N) (acc : jsstring) : jsstring :=
  match fuel with
  | O => acc
  | S fuel =>
      let acc := digitChar (n mod 36) :: acc in
      if n / 36 =? 0 then acc else digits36 fuel (n / 36) acc
  end.

Definition toString36 (n : N) : jsstring :=
  digits36 (S (N.to_nat (N.size n))) n [].

(** [parseInt(s, 36)] on a string of digits and lowercase letters. *)
Definition digitValue (c : N) : N := if c <? 58 then c - 48 else c - 97 + 10.

Definition parseInt36 (s : jsstring) : N :=
  fold_left (fun v c => v * 36 + digitValue c) s 0.

End JS.

(** ** Key obfuscation and masking of [client/src/lib/encryption.ts] *)

Module Obfuscation.

Import ListNotations JS.

Local Open Scope N_scope.

(** The loop of [simpleEncrypt] and of [simpleDecrypt], from index [i] on:
    [String.fromCharCode(text.charCodeAt(i) ^ key.charCodeAt(i % key.length))]
    appended for every [i]. *)
Fixpoint xorFrom (i : N) (text key : jsstring) : jsstring :=
  match text with
  | [] => []
  | c :: rest =>
      fromCharCode
        (bitxor (Some c)
           (charCodeAt key (rem i (N.of_nat (List.length key)))))
      :: xorFrom (i + 1) rest key
  end.

(** [simpleEncrypt], lines 14-22; [None] is the exception of [btoa]. *)
Definition simpleEncrypt (text key : jsstring) : option jsstring :=
  btoa (xorFrom 0 text key).

(** [simpleDecrypt], lines 24-38; the [catch] returns the empty string. *)
Definition simpleDecrypt (encrypted key : jsstring) : jsstring :=
  match atob encrypted with
  | Some decoded => xorFrom 0 decoded key
  | None => []
  end.

(** One turn of the hash loop of [getLocalEncryptionKey], lines 53-55:
    [hash = (hash << 5) - hash + char; hash = hash & hash]. *)
Definition hashStep (hash : Z) (char : N) : Z :=
  let hash := (toInt32 (toInt32 hash * 2 ^ 5) - hash + Z.of_N char)%Z in
  toInt32 hash.

(** [getLocalEncryptionKey], lines 43-59, the three browser values being
    its inputs. *)
Definition baseKey (userAgent language timezone : jsstring) : jsstring :=
  userAgent ++ units "-" ++ language ++ units "-" ++ timezone.

Definition hashOf (baseKey : jsstring) : Z := fold_left hashStep baseKey 0%Z.

Definition getLocalEncryptionKey (userAgent language timezone : jsstring)
  : jsstring :=
  toString36 (Z.to_N (Z.abs (hashOf (baseKey userAgent language timezone)))).

(** The key unit the loop reads at index [i], [NaN] read as 0. *)
Definition keyUnit (key : jsstring) (i : N) : N :=
  match charCodeAt key (rem i (N.of_nat (List.length key))) with
  | Some k => k
  | None => 0
  end.

(** A key character: a digit or a lowercase letter. *)
Definition isKeyChar (c : N) : Prop := 48 <= c <= 57 \/ 97 <= c <= 122.

(** [apiKey.substring(start, end)] for indices that are natural numbers. *)
Definition substring (s : jsstring) (first last : nat) : jsstring :=
  let a := Nat.min first (List.length s) in
  let b := Nat.min last (List.length s) in
  firstn (Nat.max a b - Nat.min a b) (skipn (Nat.min a b) s).

(** [getMaskedApiKey], lines 145-150. *)
Definition getMaskedApiKey (apiKey : jsstring) : jsstring :=
  if (List.length apiKey <=? 8)%nat then units "****"
  else substring apiKey 0 4 ++ units "****"
       ++ substring apiKey (List.length apiKey - 4) (List.length apiKey).

End Obfuscation.

(** ** The cached lookups of [server/binance.ts] and their procedures in
    [server/routers.ts] *)

Module Binance.

Import ListNotations JS.

(** [||] on an optional string: the left operand unless it is [undefined]
    or empty. *)
Definition truthy (s : option jsstring) : bool :=
  match s with
  | Some (_ :: _) => true
  | _ => false
  end.

Definition orElse (a : option jsstring) (b : jsstring) : jsstring :=
  match a with
  | Some (c :: s) => c :: s
  | _ => b
  end.

Definition CACHE_DURATION : Z := 60 * 1000.

Record CacheEntry (T : Type) : Type := mkCacheEntry {
  data : T;
  timestamp : Z
}.

Arguments mkCacheEntry {T}.
Arguments data {T}.
Arguments timestamp {T}.

(** [interface PriceData]; its own [timestamp] is [fetchedAt] here. *)
Record PriceData (num : Type) : Type := mkPriceData {
  symbol : jsstring;
  price : num;
  fetchedAt : Z
}.

Arguments mkPriceData {num}.
Arguments symbol {num}.
Arguments price {num}.
Arguments fetchedAt {num}.

(** [interface FeeData].  The body of a response is cast to it, not
    checked, so the two commissions the router reads are optional here:
    [None] is the [undefined] read from a body that has no such property. *)
Record FeeData (num : Type) : Type := mkFeeData {
  makerCommission : option num;
  takerCommission : option num;
  buyerCommission : num;
  sellerCommission : num;
  canTrade : bool;
  canDeposit : bool;
  canWithdraw : bool;
  brokered : bool;
  requiredSelfTradePreventionMode : jsstring;
  preventSor : bool;
  updateTime : Z
}.

Arguments mkFeeData {num}.
Arguments makerCommission {num}.
Arguments takerCommission {num}.
Arguments updateTime {num}.

(** [interface LeverageBracket] and [interface SymbolLeverageInfo], whose
    [symbol] is [infoSymbol] here. *)
Record LeverageBracket (num : Type) : Type := mkLeverageBracket {
  bracket : num;
  initialLeverage : num;
  notionalCap : num;
  notionalFloor : num;
  maintMarginRatio : num;
  cum : num
}.

Arguments mkLeverageBracket {num}.
Arguments initialLeverage {num}.
Arguments maintMarginRatio {num}.

Record SymbolLeverageInfo (num : Type) : Type := mkSymbolLeverageInfo {
  infoSymbol : jsstring;
  leverageBrackets : list (LeverageBracket num)
}.

Arguments mkSymbolLeverageInfo {num}.
Arguments leverageBrackets {num}.

(** A [Map] with string keys. *)
Definition Map (V : Type) : Type := jsstring -> option V.

Definition Map_clear {V : Type} : Map V := fun _ => None.

Definition Map_get {V : Type} (m : Map V) (key : jsstring) : option V := m key.

Definition Map_set {V : Type} (m : Map V) (key : jsstring) (v : V) : Map V :=
  fun k => if list_eq_dec N.eq_dec k key then Some v else m k.

(** What awaiting the request gave: the parsed body, or an exception (the
    request was rejected, the status was not [ok], or the body was no
    JSON). *)
Inductive Response (T : Type) : Type :=
  | Delivered (body : T)
  | Rejected.

Arguments Delivered {T}.
Arguments Rejected {T}.

(** A parsed body that was cast to [T]: the JSON text [null] is delivered
    as [null], of which no property can be read; any other value is read
    through the fields of [T]. *)
Inductive Json (T : Type) : Type :=
  | JsonNull
  | JsonValue (value : T).

Arguments JsonNull {T}.
Arguments JsonValue {T}.

(** How a call ends. *)
Inductive Completion (T : Type) : Type :=
  | Return (value : T)
  | Throw.

Arguments Return {T}.
Arguments Throw {T}.

Section Lookups.

Context {num : Type} `{Number num}.

(** [getBinancePrice], lines 65-100, as one call run to its end: [now] is
    the clock at the freshness test, [response] what the request gives
    ([parseFloat] applied), [stamp1] and [stamp2] the two clock readings of
    the cache update. *)
Definition getBinancePrice
    (priceCache : Map (CacheEntry (PriceData num))) (symbol : jsstring)
    (now : Z) (response : Response num) (stamp1 stamp2 : Z)
  : Map (CacheEntry (PriceData num)) * Completion num :=
  let cacheKey := units "price:" ++ symbol in
  let cached := Map_get priceCache cacheKey in
  let request :=
    match response with
    | Delivered price =>
        (Map_set priceCache cacheKey
           {| data := {| symbol := symbol; price := price;
                         fetchedAt := stamp1 |};
              timestamp := stamp2 |},
         Return price)
    | Rejected =>
        match cached with
        | Some entry => (priceCache, Return (price (data entry)))
        | None => (priceCache, Throw)
        end
    end in
  match cached with
  | Some entry =>
      if (now - timestamp entry <? CACHE_DURATION)%Z
      then (priceCache, Return (price (data entry)))
      else request
  | None => request
  end.

(** The fees returned when a signed request fails, lines 156-168. *)
Definition defaultFees (stamp : Z) : FeeData num :=
  {| makerCommission := Some (lit 2 10000);
     takerCommission := Some (lit 4 10000);
     buyerCommission := lit 0 1;
     sellerCommission := lit 0 1;
     canTrade := true;
     canDeposit := true;
     canWithdraw := true;
     brokered := false;
     requiredSelfTradePreventionMode := units "NONE";
     preventSor := false;
     updateTime := stamp |}.

(** [getBinanceFees], lines 109-176; [BINANCE_API_KEY] and
    [BINANCE_API_SECRET] are the values of the environment.  The body is
    cached and returned as it was delivered, [null] included. *)
Definition getBinanceFees
    (BINANCE_API_KEY BINANCE_API_SECRET : jsstring)
    (feeCache : Map (CacheEntry (Json (FeeData num))))
    (clientApiKey clientApiSecret : option jsstring)
    (now : Z) (response : Response (Json (FeeData num))) (stamp : Z)
  : Map (CacheEntry (Json (FeeData num))) * Completion (Json (FeeData num)) :=
  let cacheKey := units "fees" in
  let cached := Map_get feeCache cacheKey in
  let apiKey := orElse clientApiKey BINANCE_API_KEY in
  let apiSecret := orElse clientApiSecret BINANCE_API_SECRET in
  let request :=
    match response with
    | Delivered data =>
        (Map_set feeCache cacheKey {| data := data; timestamp := stamp |},
         Return data)
    | Rejected =>
        if truthy (Some apiKey) && truthy (Some apiSecret)
        then (feeCache, Return (JsonValue (defaultFees stamp)))
        else match cached with
             | Some entry => (feeCache, Return (data entry))
             | None => (feeCache, Throw)
             end
    end in
  match cached with
  | Some entry =>
      if (now - timestamp entry <? CACHE_DURATION)%Z
      then (feeCache, Return (data entry))
      else request
  | None => request
  end.

(** What the [price] and [fees] procedures of the router answer. *)
Inductive PriceReply : Type :=
  | PriceSuccess (price : num)
  | PriceFailure (error : jsstring).

Inductive FeesReply : Type :=
  | FeesSuccess (makerCommission takerCommission : option num)
  | FeesFailure (error : jsstring).

(** The [price] procedure, [routers.ts] lines 39-55. *)
Definition priceProcedure
    (priceCache : Map (CacheEntry (PriceData num))) (symbol : jsstring)
    (now : Z) (response : Response num) (stamp1 stamp2 : Z)
  : Map (CacheEntry (PriceData num)) * PriceReply :=
  match getBinancePrice priceCache symbol now response stamp1 stamp2 with
  | (cache, Return price) => (cache, PriceSuccess price)
  | (cache, Throw) =>
      (cache, PriceFailure (units "Failed to fetch price from Binance"))
  end.

(** The [fees] procedure, [routers.ts] lines 58-91.  Reading
    [fees.makerCommission] of [null] throws and ends in the [catch]. *)
Definition feesProcedure
    (BINANCE_API_KEY BINANCE_API_SECRET : jsstring)
    (feeCache : Map (CacheEntry (Json (FeeData num))))
    (apiKey apiSecret : option jsstring)
    (now : Z) (response : Response (Json (FeeData num))) (stamp : Z)
  : Map (CacheEntry (Json (FeeData num))) * FeesReply :=
  if (truthy apiKey && negb (truthy apiSecret))
     || (negb (truthy apiKey) && truthy apiSecret)
  then
    (feeCache,
     FeesFailure
       (units "API key and secret must both be provided or both be empty"))
  else
    match getBinanceFees BINANCE_API_KEY BINANCE_API_SECRET feeCache
            apiKey apiSecret now response stamp with
    | (cache, Return (JsonValue fees)) =>
        (cache,
         FeesSuccess (makerCommission fees) (takerCommission fees))
    | (cache, Return JsonNull) =>
        (cache, FeesFailure (units "Failed to fetch fees from Binance"))
    | (cache, Throw) =>
        (cache, FeesFailure (units "Failed to fetch fees from Binance"))
    end.

(** [getLeverageBrackets], lines 186-241.  The body of the response is an
    array, of which [data[0]] is cached and returned: [undefined], here
    [None], when the array is empty.  The credentials only shape the
    request. *)
Definition getLeverageBrackets
    (BINANCE_API_KEY BINANCE_API_SECRET : jsstring)
    (leverageCache : Map (CacheEntry (option (SymbolLeverageInfo num))))
    (symbol : jsstring) (clientApiKey clientApiSecret : option jsstring)
    (now : Z) (response : Response (list (SymbolLeverageInfo num)))
    (stamp : Z)
  : Map (CacheEntry (option (SymbolLeverageInfo num)))
    * Completion (option (SymbolLeverageInfo num)) :=
  let cacheKey := units "leverage:" ++ symbol in
  let cached := Map_get leverageCache cacheKey in
  let apiKey := orElse clientApiKey BINANCE_API_KEY in
  let apiSecret := orElse clientApiSecret BINANCE_API_SECRET in
  let request :=
    match response with
    | Delivered data =>
        let symbolData := nth_error data 0 in
        (Map_set leverageCache cacheKey
           {| data := symbolData; timestamp := stamp |},
         Return symbolData)
    | Rejected =>
        match cached with
        | Some entry => (leverageCache, Return (data entry))
        | None => (leverageCache, Throw)
        end
    end in
  match cached with
  | Some entry =>
      if (now - timestamp entry <? CACHE_DURATION)%Z
      then (leverageCache, Return (data entry))
      else request
  | None => request
  end.

Inductive BracketsReply : Type :=
  | BracketsSuccess (maintMarginRatio initialLeverage : num)
      (brackets : list (LeverageBracket num))
  | BracketsFailure (error : jsstring).

(** The [leverageBrackets] procedure, [routers.ts] lines 94-138.  Reading
    a property of [undefined], be it the information or the last bracket,
    throws and ends in the [catch]. *)
Definition leverageBracketsProcedure
    (BINANCE_API_KEY BINANCE_API_SECRET : jsstring)
    (leverageCache : Map (CacheEntry (option (SymbolLeverageInfo num))))
    (symbol : jsstring) (apiKey apiSecret : option jsstring)
    (now : Z) (response : Response (list (SymbolLeverageInfo num)))
    (stamp : Z)
  : Map (CacheEntry (option (SymbolLeverageInfo num))) * BracketsReply :=
  let failure :=
    BracketsFailure (units "Failed to fetch leverage brackets from Binance") in
  if (truthy apiKey && negb (truthy apiSecret))
     || (negb (truthy apiKey) && truthy apiSecret)
  then
    (leverageCache,
     BracketsFailure
       (units "API key and secret must both be provided or both be empty"))
  else
    match getLeverageBrackets BINANCE_API_KEY BINANCE_API_SECRET
            leverageCache symbol apiKey apiSecret now response stamp with
    | (cache, Return (Some brackets)) =>
        match nth_error (leverageBrackets brackets)
                (List.length (leverageBrackets brackets) - 1) with
        | Some lowestBracket =>
            (cache,
             BracketsSuccess (maintMarginRatio lowestBracket)
               (initialLeverage lowestBracket) (leverageBrackets brackets))
        | None => (cache, failure)
        end
    | (cache, Return None) => (cache, failure)
    | (cache, Throw) => (cache, failure)
    end.

End Lookups.

(** Values to run the lookups on: [BTCUSDT] cached at 60000 at time 1000,
    and fees of 0.0001 and 0.0003 fetched at time 1000. *)
Definition exampleEntry : CacheEntry (PriceData float) :=
  mkCacheEntry (mkPriceData (units "BTCUSDT") 60000%float 1000%Z) 1000%Z.

Definition exampleCache : Map (CacheEntry (PriceData float)) :=
  Map_set Map_clear (units "price:BTCUSDT") exampleEntry.

Definition exampleFees : FeeData float :=
  mkFeeData (Some 0.0001%float) (Some 0.0003%float) 0%float 0%float
    true true true false (units "NONE") false 1000%Z.

End Binance.

(** ** The comparison panel, [PositionComparison], that calls the
    calculator for a list of positions *)

(** [a > b] on [number]. *)
Class NumberOrder (num : Type) : Type := {
  gtb : num -> num -> bool
}.

#[global] Instance binary64_order : NumberOrder float := {|
  gtb := fun a b => PrimFloat.ltb b a
|}.

#[global] Instance ideal_order : NumberOrder R := {|
  gtb := fun a b => if Rlt_dec b a then true else false
|}.

Module Position.

(** [interface Position]. *)
Record Position (num : Type) : Type := mkPosition {
  id : JS.jsstring;
  name : JS.jsstring;
  openPrice : num;
  margin : num;
  leverage : num;
  positionType : PositionType;
  marginMode : MarginMode
}.

Arguments mkPosition {num}.
Arguments id {num}.
Arguments name {num}.
Arguments openPrice {num}.
Arguments margin {num}.
Arguments leverage {num}.
Arguments positionType {num}.
Arguments marginMode {num}.

End Position.

Module PositionComparison.

Import ListNotations JS.

(** An element of [results]. *)
Record Row (num : Type) : Type := mkRow {
  position : Position.Position num;
  result : CalculationResult num;
  profit : num;
  profitPercent : num
}.

Arguments mkRow {num}.
Arguments position {num}.
Arguments result {num}.
Arguments profit {num}.
Arguments profitPercent {num}.

Section Panel.

Context {num : Type} `{Number num} `{NumberOrder num}.

Local Open Scope num_scope.

(** The two positions the panel starts with, named [仓位 1] and [仓位 2]. *)
Definition initialPositions : list (Position.Position num) :=
  [ Position.mkPosition (units "1") [20179%N; 20301%N; 32%N; 49%N]
      (lit 60000 1) (lit 20 1) (lit 5 1) long isolated;
    Position.mkPosition (units "2") [20179%N; 20301%N; 32%N; 50%N]
      (lit 60000 1) (lit 50 1) (lit 3 1) long isolated ].

(** [deletePosition]: the last position left is never deleted. *)
Definition deletePosition
    (positions : list (Position.Position num)) (id : jsstring)
  : list (Position.Position num) :=
  if (1 <? List.length positions)%nat
  then filter
         (fun p =>
            if list_eq_dec N.eq_dec (Position.id p) id then false else true)
         positions
  else positions.

(** The parameters the panel computes a position with. *)
Definition paramsOf (pos : Position.Position num) : ContractParams num :=
  {| openPrice := Position.openPrice pos;
     margin := Position.margin pos;
     leverage := Position.leverage pos;
     marginMode := Position.marginMode pos;
     positionType := Position.positionType pos;
     maintainanceRate := Some (lit 5 1000);
     openFee := Some (lit 2 10000);
     closeFee := Some (lit 2 10000);
     fundingRate := Some (lit 0 1);
     fundingPeriodHours := None |}.

Definition results
    (positions : list (Position.Position num)) (currentPrice : num)
  : list (Row num) :=
  map
    (fun pos =>
       let params := paramsOf pos in
       {| position := pos;
          result := calculateContract params;
          profit := profitAtPrice (calculateContract params) currentPrice;
          profitPercent :=
            profitPercentAtPrice (calculateContract params) currentPrice |})
    positions.

Definition totalMargin (results : list (Row num)) : num :=
  fold_left (fun sum r => sum + Position.margin (position r)) results
    (lit 0 1).

Definition totalPositionSize (results : list (Row num)) : num :=
  fold_left (fun sum r => sum + positionSize (result r)) results (lit 0 1).

Definition totalProfit (results : list (Row num)) : num :=
  fold_left (fun sum r => sum + profit r) results (lit 0 1).

Definition totalProfitPercent (results : list (Row num)) : num :=
  if gtb (totalMargin results) (lit 0 1)
  then (totalProfit results / totalMargin results) * lit 100 1
  else lit 0 1.

Definition avgLiquidationPrice (results : list (Row num)) : num :=
  if (0 <? List.length results)%nat
  then
    fold_left (fun sum r => sum + liquidationPrice (result r)) results
      (lit 0 1)
    / lit (Z.of_nat (List.length results)) 1
  else lit 0 1.

End Panel.

End PositionComparison.

(** ** Results *)

Ltac ideal_unfold :=
  cbv [calculateContract calculateLeverageFromLiquidationPrice
       calculateLeverageFromRiskPercentage liquidationDenominator
       riskDenominator defaultScenario withMarginMode withPositionType
       nullish add sub mul div Math_abs Math_max lit Ideal.number
       Ideal.literal
       openPrice margin leverage marginMode positionType maintainanceRate
       openFee closeFee fundingRate fundingPeriodHours
       positionSize positionSizeInCoin liquidationPrice
       liquidationPricePercent riskPercentage maxLoss openFeeAmount
       closeFeeAmount totalFeeAmount fundingFeePerPeriod fundingFeePerDay
       breakEvenPrice profitAtPrice profitPercentAtPrice].

(** *** The two readings of a literal *)

Lemma binary64_literals :
  (Binary64.literal 5 1000 = 0.005
   /\ Binary64.literal 2 10000 = 0.0002
   /\ Binary64.literal 11 10 = 1.1
   /\ Binary64.literal 100 1 = 100
   /\ Binary64.literal 60000 1 = 60000
   /\ Binary64.literal 24 1 = 24
   /\ Binary64.literal 8 1 = 8
   /\ Binary64.literal 1 1 = 1
   /\ Binary64.literal 0 1 = 0)%float.
Proof. repeat split; vm_compute; reflexivity. Qed.

Lemma ideal_literals :
  (Ideal.literal 5 1000 = 0.005
   /\ Ideal.literal 2 10000 = 0.0002
   /\ Ideal.literal 11 10 = 1.1
   /\ Ideal.literal 100 1 = 100
   /\ Ideal.literal 1 1 = 1
   /\ Ideal.literal 0 1 = 0)%R.
Proof. unfold Ideal.literal. repeat split; lra. Qed.

(** *** Whatever [number] is *)

Section AnyNumber.

Context {num : Type} `{Number num}.

(** C4: two parameter records that differ at most in [marginMode] give the
    same result, closures included, and [maxLoss] is the margin under
    either mode. *)
Theorem marginMode_noninterference (p q : ContractParams num) :
  sameButMarginMode p q ->
  calculateContract p = calculateContract q
  /\ positionSize (calculateContract p) = positionSize (calculateContract q)
  /\ positionSizeInCoin (calculateContract p)
     = positionSizeInCoin (calculateContract q)
  /\ liquidationPrice (calculateContract p)
     = liquidationPrice (calculateContract q)
  /\ liquidationPricePercent (calculateContract p)
     = liquidationPricePercent (calculateContract q)
  /\ riskPercentage (calculateContract p)
     = riskPercentage (calculateContract q)
  /\ maxLoss (calculateContract p) = maxLoss (calculateContract q)
  /\ openFeeAmount (calculateContract p)
     = openFeeAmount (calculateContract q)
  /\ closeFeeAmount (calculateContract p)
     = closeFeeAmount (calculateContract q)
  /\ totalFeeAmount (calculateContract p)
     = totalFeeAmount (calculateContract q)
  /\ fundingFeePerPeriod (calculateContract p)
     = fundingFeePerPeriod (calculateContract q)
  /\ fundingFeePerDay (calculateContract p)
     = fundingFeePerDay (calculateContract q)
  /\ breakEvenPrice (calculateContract p)
     = breakEvenPrice (calculateContract q)
  /\ (forall price,
        profitAtPrice (calculateContract p) price
        = profitAtPrice (calculateContract q) price)
  /\ (forall price,
        profitPercentAtPrice (calculateContract p) price
        = profitPercentAtPrice (calculateContract q) price)
  /\ maxLoss (calculateContract p) = margin p
  /\ maxLoss (calculateContract q) = margin q.
Proof.
  destruct p as [o1 mg1 l1 mm1 pt1 mr1 fo1 fc1 fr1 fp1].
  destruct q as [o2 mg2 l2 mm2 pt2 mr2 fo2 fc2 fr2 fp2].
  unfold sameButMarginMode; cbn.
  intros (-> & -> & -> & -> & -> & -> & -> & -> & ->).
  repeat split.
Qed.

(** C5: the risk solver is [max(1, 1 / (riskPercentage/100 +
    maintainanceRate))], the rate defaulting to 0.005, and does not look at
    the position type. *)
Theorem riskPercentage_solver_formula
    (risk : num) (type : PositionType) (rate : option num) :
  calculateLeverageFromRiskPercentage risk type rate
  = Math_max (lit 1 1)
      (div (lit 1 1) (add (div risk (lit 100 1)) (rate ?? lit 5 1000)))
  /\ calculateLeverageFromRiskPercentage risk long rate
     = calculateLeverageFromRiskPercentage risk short rate.
Proof. split; reflexivity. Qed.

End AnyNumber.

(** C4 at the default long position, isolated against cross. *)
Lemma marginMode_noninterference_witness :
  calculateContract (defaultScenario (num := float) long)
  = calculateContract (withMarginMode cross (defaultScenario long)).
Proof.
  apply (marginMode_noninterference
           (defaultScenario long)
           (withMarginMode cross (defaultScenario long))).
  repeat split.
Defined.

(** *** Exact arithmetic *)

Section IdealResults.

Local Open Scope R_scope.

(** Inverting a long liquidation price gives the leverage back. *)
Lemma long_round_trip (p : ContractParams R) :
  positionType p = long -> 0 < openPrice p -> 1 <= leverage p ->
  calculateLeverageFromLiquidationPrice (openPrice p)
    (liquidationPrice (calculateContract p)) long (maintainanceRate p)
  = leverage p.
Proof.
  destruct p as [o mg l mm pt mr fo fc fr fp]; cbn [positionType openPrice leverage maintainanceRate].
  intros -> Ho Hl. ideal_unfold.
  set (m := match mr with Some v => v | None => 5 / 1000 end).
  replace (1 - o * (1 - 1 / l + m) / o + m) with (/ l) by (field; lra).
  replace (1 / / l) with l by (field; lra).
  apply Rmax_right; exact Hl.
Qed.

(** Inverting a short liquidation price does not: the solver subtracts
    the maintenance rate a second time. *)
Lemma short_round_trip_formula (p : ContractParams R) :
  positionType p = short -> 0 < openPrice p -> 1 <= leverage p ->
  calculateLeverageFromLiquidationPrice (openPrice p)
    (liquidationPrice (calculateContract p)) short (maintainanceRate p)
  = Rmax 1 (1 / (1 / leverage p - 2 * (maintainanceRate p ?? 0.005))).
Proof.
  destruct p as [o mg l mm pt mr fo fc fr fp]; cbn [positionType openPrice leverage maintainanceRate].
  intros -> Ho Hl. ideal_unfold.
  set (m := match mr with Some v => v | None => 5 / 1000 end).
  replace (o * (1 + 1 / l - m) / o - 1 - m) with (1 / l - 2 * m) by (field; lra).
  replace (match mr with Some v => v | None => 0.005 end) with m; [reflexivity|].
  unfold m; destruct mr; lra.
Qed.

(** In exact arithmetic closing at the open price loses the round-trip
    fee, for a long and for a short position. *)
Lemma profit_at_open_price_exact (p : ContractParams R) :
  0 < openPrice p ->
  profitAtPrice (calculateContract p) (openPrice p)
  = - totalFeeAmount (calculateContract p).
Proof.
  destruct p as [o mg l mm pt mr fo fc fr fp]; cbn [openPrice].
  intros Ho. destruct pt; ideal_unfold; field; lra.
Qed.


(** C9: at the reported break-even price the profit is one tenth of the
    total fee. *)
Theorem profit_at_breakEvenPrice (p : ContractParams R) :
  0 < openPrice p -> margin p * leverage p <> 0 ->
  profitAtPrice (calculateContract p) (breakEvenPrice (calculateContract p))
  = 0.1 * totalFeeAmount (calculateContract p).
Proof.
  destruct p as [o mg l mm pt mr fo fc fr fp]; cbn [openPrice margin leverage].
  intros Ho Hs. replace 0.1 with (1 / 10) by lra.
  assert (Hl : l <> 0) by (intros ->; apply Hs; ring).
  assert (Hm : mg <> 0) by (intros ->; apply Hs; ring).
  destruct pt; ideal_unfold; field; repeat split; solve [lra | assumption].
Qed.


(** The default short position in exact arithmetic: the liquidation price
    is 71700, and solving it back for the leverage gives 100/19, not the 5
    it was computed from. *)
Lemma short_round_trip_default_ideal :
  let p := defaultScenario (num := R) short in
  let L := liquidationPrice (calculateContract p) in
  L = 71700
  /\ 0 < liquidationDenominator (openPrice p) L short (maintainanceRate p)
  /\ calculateLeverageFromLiquidationPrice
       (openPrice p) L short (maintainanceRate p) = 100 / 19
  /\ calculateLeverageFromLiquidationPrice
       (openPrice p) L short (maintainanceRate p) <> leverage p.
Proof.
  assert (HL : liquidationPrice
                 (calculateContract (defaultScenario (num := R) short))
               = 71700) by (ideal_unfold; lra).
  assert (Hlev : calculateLeverageFromLiquidationPrice
                   60000 71700 short (Some (5 / 1000)) = 100 / 19).
  { ideal_unfold.
    replace (1 / (71700 / 60000 - 1 - 5 / 1000)) with (100 / 19) by field.
    apply Rmax_right; lra. }
  cbv zeta. rewrite HL.
  change (openPrice (defaultScenario (num := R) short)) with 60000.
  change (leverage (defaultScenario (num := R) short)) with 5.
  change (maintainanceRate (defaultScenario (num := R) short))
    with (Some (5 / 1000)).
  rewrite Hlev. repeat split; try lra.
  ideal_unfold. lra.
Qed.

(** C3 in exact arithmetic. *)
Lemma default_scenario_ideal :
  let r := calculateContract (defaultScenario (num := R) long) in
  positionSize r = 100
  /\ Rabs (positionSizeInCoin r - 0.0016667) < 0.00000005
  /\ liquidationPrice r = 48300
  /\ riskPercentage r = 19.5
  /\ maxLoss r = 20
  /\ openFeeAmount r = 0.02
  /\ closeFeeAmount r = 0.02
  /\ totalFeeAmount r = 0.04.
Proof.
  cbv zeta. repeat split; ideal_unfold; try lra.
  - apply Rabs_def1; lra.
  - replace (60000 * (1 - 1 / 5 + 5 / 1000) - 60000) with (- 11700) by lra.
    rewrite Rabs_left by lra. lra.
Qed.

End IdealResults.


(** C9 at the default short position. *)
Lemma profit_at_breakEvenPrice_witness :
  (0 < 60000 /\ 20 * 5 <> 0
   /\ profitAtPrice (calculateContract (defaultScenario short))
        (breakEvenPrice (calculateContract (defaultScenario short)))
      = 0.1 * totalFeeAmount (calculateContract (defaultScenario short)))%R.
Proof.
  split; [lra|]. split; [lra|].
  refine (profit_at_breakEvenPrice (defaultScenario short) _ _); cbn; lra.
Defined.


(** *** Binary64 arithmetic *)

(** Facts of the binary64 specification the arguments below need: a
    correctly rounded result keeps the sign of its exact value, an
    operation gives [NaN] only on the operands the standard names, and the
    comparisons are reflexive away from [NaN]. *)
Module SpecFacts.

Import Binary64.

Local Open Scope Z_scope.

Lemma shr_1_nonneg (mrs : shr_record) :
  0 <= shr_m mrs -> 0 <= shr_m (shr_1 mrs).
Proof. destruct mrs as [[|[p|p|]|p] r s]; cbn; lia. Qed.

Lemma iter_shr_1_nonneg (p : positive) :
  forall mrs, 0 <= shr_m mrs -> 0 <= shr_m (SpecFloat.iter_pos shr_1 p mrs).
Proof.
  induction p as [p IH|p IH|]; intros mrs Hm; cbn.
  - apply IH, IH, shr_1_nonneg, Hm.
  - apply IH, IH, Hm.
  - apply shr_1_nonneg, Hm.
Qed.

Lemma shr_fexp_nonneg (m e : Z) (l : location) :
  0 <= m -> 0 <= shr_m (fst (shr_fexp prec emax m e l)).
Proof.
  intros Hm. unfold shr_fexp, shr.
  assert (H0 : 0 <= shr_m (shr_record_of_loc m l))
    by (destruct l as [|[]]; exact Hm).
  destruct (fexp prec emax (Zdigits2 m + e) - e); cbn [fst];
    auto using iter_shr_1_nonneg.
Qed.

Lemma round_nearest_even_nonneg (m : Z) (l : location) :
  0 <= m -> 0 <= round_nearest_even m l.
Proof.
  intros Hm. destruct l as [|[]]; cbn; try lia.
  destruct (IntDef.Z.even m); lia.
Qed.

Lemma binary_round_aux_signed (s : bool) (m e : Z) (l : location) :
  0 <= m -> signed s (binary_round_aux prec emax s m e l).
Proof.
  intros Hm. unfold binary_round_aux.
  pose proof (shr_fexp_nonneg m e l Hm) as H1.
  destruct (shr_fexp prec emax m e l) as [mrs' e']; cbn [fst] in H1.
  pose proof (shr_fexp_nonneg _ e' loc_Exact
                (round_nearest_even_nonneg _ (loc_of_shr_record mrs') H1))
    as H2.
  destruct (shr_fexp prec emax _ e' loc_Exact) as [mrs'' e''];
    cbn [fst] in H2.
  destruct (shr_m mrs'') as [|q|q]; [reflexivity| |lia].
  destruct (_ <=? _); reflexivity.
Qed.

Lemma div_core_nonneg (m1 m2 : positive) (e1 e2 : Z) :
  0 <= fst (fst (SFdiv_core_binary prec emax (Z.pos m1) e1 (Z.pos m2) e2)).
Proof.
  unfold SFdiv_core_binary.
  set (s := e1 - e2 - _).
  set (m' := match s with 0 => Z.pos m1 | Z.pos _ => _ | Z.neg _ => 0 end).
  assert (Hm' : 0 <= m').
  { unfold m'. destruct s; try lia.
    change (0 <= Z.shiftl (Z.pos m1) (Z.pos p)).
    apply Z.shiftl_nonneg. lia. }
  assert (Hq : 0 <= fst (Z.div_eucl m' (Z.pos m2)))
    by (change (0 <= m' / Z.pos m2); apply Z.div_pos; lia).
  change IntDef.Z.div_eucl with Z.div_eucl.
  destruct (Z.div_eucl m' (Z.pos m2)) as [q r]. exact Hq.
Qed.

(** The quotient of a positive finite number by a number of sign [s] is a
    number of sign [s]. *)
Lemma div_positive_signed (m : positive) (e : Z) (s : bool) (y : spec_float) :
  signed s y -> signed s (SF64div (S754_finite false m e) y).
Proof.
  destruct y as [sy|sy| |sy my ey]; cbn; try tauto.
  intros ->.
  pose proof (div_core_nonneg m my e ey) as Hq.
  destruct (SFdiv_core_binary prec emax (Z.pos m) e (Z.pos my) ey)
    as [[mz ez] lz].
  apply binary_round_aux_signed. exact Hq.
Qed.

Lemma compare_refl (f : spec_float) :
  f <> S754_nan -> SFcompare f f = Some Eq.
Proof.
  destruct f as [s|s| |s m e]; cbn; try congruence.
  - destruct s; reflexivity.
  - intros _. rewrite Z.compare_refl.
    assert (Hm : PosDef.Pos.compare_cont Eq m m = Eq)
      by (change (Pos.compare m m = Eq); apply Pos.compare_refl).
    rewrite Hm. destruct s; reflexivity.
Qed.

Lemma signed_not_nan (s : bool) (f : spec_float) :
  signed s f -> f <> S754_nan.
Proof. destruct f; cbn; congruence || tauto. Qed.

Lemma finite_not_nan (f : spec_float) : finite f -> f <> S754_nan.
Proof. destruct f; cbn; congruence || tauto. Qed.

Lemma binary_round_signed (s : bool) (m : positive) (e : Z) :
  signed s (binary_round prec emax s m e).
Proof.
  unfold binary_round. destruct (shl_align m e _) as [mz ez].
  apply binary_round_aux_signed. lia.
Qed.

Lemma binary_normalize_number (m e : Z) (szero : bool) :
  binary_normalize prec emax m e szero <> S754_nan.
Proof.
  destruct m; cbn [binary_normalize]; [discriminate| |];
    eapply signed_not_nan, binary_round_signed.
Qed.

(** A sum of two numbers is a number as soon as one of them is finite. *)
Lemma add_number (x y : spec_float) :
  x <> S754_nan -> y <> S754_nan -> finite x \/ finite y ->
  SF64add x y <> S754_nan.
Proof.
  destruct x as [sx|sx| |sx mx ex], y as [sy|sy| |sy my ey];
    unfold SF64add, SFadd, finite; intros Hx Hy Hf;
    try congruence; try tauto; try discriminate.
  - destruct sx, sy; discriminate.
  - apply binary_normalize_number.
Qed.

(** So is a difference. *)
Lemma sub_number (x y : spec_float) :
  x <> S754_nan -> y <> S754_nan -> finite x \/ finite y ->
  SF64sub x y <> S754_nan.
Proof.
  destruct x as [sx|sx| |sx mx ex], y as [sy|sy| |sy my ey];
    unfold SF64sub, SFsub, finite; intros Hx Hy Hf;
    try congruence; try tauto; try discriminate.
  - destruct sx, sy; discriminate.
  - apply binary_normalize_number.
Qed.

(** [x - x] is [+0] for a finite [x]. *)
Lemma sub_diag (x : spec_float) :
  finite x -> SF64sub x x = S754_zero false.
Proof.
  destruct x as [s|s| |s m e]; unfold SF64sub, SFsub, finite; try tauto;
    intros _.
  - destruct s; reflexivity.
  - cbv zeta. rewrite Z.sub_diag. reflexivity.
Qed.

(** [0 - f] is [-f], up to the sign of a zero. *)
Lemma sub_from_zero (s : bool) (f : spec_float) :
  (SFeqb f (S754_zero false) = false ->
   SF64sub (S754_zero s) f = SFopp f)
  /\ (f <> S754_nan -> SFeqb (SF64sub (S754_zero s) f) (SFopp f) = true).
Proof.
  destruct f as [sf|sf| |sf mf ef]; unfold SF64sub, SFsub; split;
    try reflexivity; try discriminate; try congruence.
  - destruct s, sf; reflexivity.
  - intros _. unfold SFeqb. rewrite compare_refl by discriminate.
    reflexivity.
  - intros _. unfold SFeqb. rewrite compare_refl by discriminate.
    reflexivity.
Qed.

Lemma mul_zero_finite (s : bool) (y : spec_float) :
  finite y -> exists s', SF64mul (S754_zero s) y = S754_zero s'.
Proof.
  destruct y as [sy|sy| |sy my ey]; cbn; try tauto; intros _;
    eexists; reflexivity.
Qed.

(** The product of a finite number other than zero and a number is a
    number. *)
Lemma mul_number (s : bool) (m : positive) (e : Z) (y : spec_float) :
  y <> S754_nan -> SF64mul (S754_finite s m e) y <> S754_nan.
Proof.
  destruct y as [sy|sy| |sy my ey]; unfold SF64mul, SFmul; intros Hy;
    try congruence; try discriminate.
  eapply signed_not_nan, binary_round_aux_signed. lia.
Qed.

Lemma mul_positive (x : spec_float) (m : positive) (e : Z) :
  signed false x -> signed false (SF64mul x (S754_finite false m e)).
Proof.
  intros Hx.
  destruct x as [sx|sx| |sx mx ex]; cbn in Hx; subst; try tauto;
    unfold SF64mul, SFmul; try reflexivity.
  apply binary_round_aux_signed. lia.
Qed.

Lemma mul_notNegative (x : spec_float) (m : positive) (e : Z) :
  notNegative x -> notNegative (SF64mul x (S754_finite false m e)).
Proof.
  intros [->|Hx]; [left; reflexivity|].
  right. apply mul_positive, Hx.
Qed.

Lemma div_positive (x : spec_float) (m : positive) (e : Z) :
  signed false x -> signed false (SF64div x (S754_finite false m e)).
Proof.
  intros Hx.
  destruct x as [sx|sx| |sx mx ex]; cbn in Hx; subst; try tauto;
    unfold SF64div, SFdiv; try reflexivity.
  pose proof (div_core_nonneg mx m ex e) as Hq.
  destruct (SFdiv_core_binary prec emax (Z.pos mx) ex (Z.pos m) e)
    as [[mz ez] lz].
  apply binary_round_aux_signed. exact Hq.
Qed.

Lemma div_notNegative (x y : spec_float) :
  notNegative x -> aboveZero y -> notNegative (SF64div x y).
Proof.
  intros [->|Hx] Hy; [left; reflexivity|].
  destruct y as [sy|sy| |sy my ey]; cbn in Hy; try tauto;
    destruct sy; try tauto.
  - destruct x as [sx|sx| |sx mx ex]; cbn in Hx; subst; try tauto;
      unfold SF64div, SFdiv; (right; reflexivity) || (left; reflexivity).
  - right. apply div_positive, Hx.
Qed.

Lemma abs_notNegative (x : spec_float) : notNegative (SFabs x).
Proof. destruct x; [right|right|left|right]; reflexivity. Qed.

Lemma abs_number (x : spec_float) :
  x <> S754_nan -> signed false (SFabs x).
Proof. destruct x; cbn; congruence. Qed.

Lemma zero_leb (x : spec_float) :
  signed false x -> SFleb (S754_zero false) x = true.
Proof.
  destruct x as [s|s| |s m e]; cbn; intros Hx; subst; tauto || reflexivity.
Qed.

End SpecFacts.

Section Binary64Results.

Import Binary64 SpecFacts.

Local Open Scope float_scope.

Lemma is_nan_false (x : float) :
  is_nan x = false <-> Prim2SF x <> S754_nan.
Proof.
  unfold is_nan. rewrite FloatAxioms.eqb_spec. unfold SFeqb. split.
  - intros Hx E. rewrite E in Hx. discriminate.
  - intros Hx. rewrite compare_refl by exact Hx. reflexivity.
Qed.

Lemma is_nan_true (x : float) :
  is_nan x = true <-> Prim2SF x = S754_nan.
Proof.
  split.
  - intros Hx. destruct (Prim2SF x) eqn:E; try reflexivity;
      assert (Hn : is_nan x = false)
        by (apply is_nan_false; rewrite E; discriminate);
      congruence.
  - intros E. unfold is_nan. rewrite FloatAxioms.eqb_spec, E. reflexivity.
Qed.

Lemma signed_is_nan (s : bool) (x : float) :
  signed s (Prim2SF x) -> is_nan x = false.
Proof. intros Hs. apply is_nan_false. eapply signed_not_nan, Hs. Qed.

Lemma not_nan_signed (x : float) :
  is_nan x = false -> exists s, signed s (Prim2SF x).
Proof.
  intros Hx. apply is_nan_false in Hx.
  destruct (Prim2SF x) as [s|s| |s m e]; try (exists s; reflexivity).
  congruence.
Qed.

Lemma negative_signed (d : float) :
  (d <? 0) = true -> signed true (Prim2SF d).
Proof.
  rewrite FloatAxioms.ltb_spec. change (Prim2SF 0) with (S754_zero false).
  destruct (Prim2SF d) as [s|s| |s m e]; cbn; try discriminate;
    destruct s; cbn; congruence.
Qed.

(** [1 / d] has the sign of [d]. *)
Lemma reciprocal_signed (s : bool) (d : float) :
  signed s (Prim2SF d) -> signed s (Prim2SF (1 / d)).
Proof.
  rewrite FloatAxioms.div_spec.
  change (Prim2SF 1) with (S754_finite false 4503599627370496 (-52)).
  apply div_positive_signed.
Qed.

(** [Math.max(1, x)] is at least 1 unless [x] is [NaN]. *)
Lemma max_one_ge (x : float) :
  is_nan x = false -> geb (max 1 x) 1 = true.
Proof.
  intros Hx. unfold geb, max. rewrite Hx.
  change (is_nan 1 || false) with false. cbv iota.
  destruct (1 <? x) eqn:E1.
  - rewrite FloatAxioms.leb_spec. rewrite FloatAxioms.ltb_spec in E1. unfold SFleb, SFltb in *.
    destruct (SFcompare (Prim2SF 1) (Prim2SF x)) as [[]|];
      congruence.
  - destruct (x <? 1); reflexivity.
Qed.

(** [Math.max(1, x)] is 1 when [x] is negative, [-0] and [-Infinity]
    included. *)
Lemma max_one_negative (x : float) :
  signed true (Prim2SF x) -> max 1 x = 1.
Proof.
  intros Hs. unfold max. rewrite (signed_is_nan _ _ Hs).
  change (is_nan 1 || false) with false. cbv iota.
  rewrite !FloatAxioms.ltb_spec. unfold SFltb.
  change (Prim2SF 1) with (S754_finite false 4503599627370496 (-52)).
  destruct (Prim2SF x) as [s|s| |s m e]; cbn in Hs; subst; try tauto;
    reflexivity.
Qed.

Lemma max_one_nan (x : float) : is_nan x = true -> max 1 x = nan.
Proof. intros Hx. unfold max. rewrite Hx, orb_true_r. reflexivity. Qed.

(** What the two solvers make of their divisor [d]. *)
Lemma clamped_reciprocal (d : float) :
  (is_nan d = false -> geb (max 1 (1 / d)) 1 = true)
  /\ ((d <? 0) = true -> max 1 (1 / d) = 1)
  /\ (d = (-0) -> max 1 (1 / d) = 1)
  /\ (d = 0 -> max 1 (1 / d) = infinity)
  /\ (is_nan d = true -> max 1 (1 / d) = nan).
Proof.
  repeat split.
  - intros Hd. destruct (not_nan_signed d Hd) as [s Hs].
    apply max_one_ge. eapply signed_is_nan, reciprocal_signed, Hs.
  - intros Hd. apply max_one_negative, reciprocal_signed, negative_signed, Hd.
  - intros ->. reflexivity.
  - intros ->. reflexivity.
  - intros Hd. apply max_one_nan, is_nan_true.
    apply is_nan_true in Hd. rewrite FloatAxioms.div_spec, Hd. reflexivity.
Qed.

Lemma liquidation_solver_clamps
    (openPrice target : float) (type : PositionType) (rate : option float) :
  calculateLeverageFromLiquidationPrice openPrice target type rate
  = max 1 (1 / liquidationDenominator openPrice target type rate).
Proof. destruct type; reflexivity. Qed.

Lemma risk_solver_clamps
    (risk : float) (type : PositionType) (rate : option float) :
  calculateLeverageFromRiskPercentage risk type rate
  = max 1 (1 / riskDenominator risk rate).
Proof. reflexivity. Qed.

(** C2, as the code has it: with [d] the divisor of the inverse formula,
    each solver returns a value of at least 1 when [d] is a number, exactly
    1 when [d] is negative or [-0], [Infinity] when [d] is [+0], and [NaN]
    when [d] is [NaN]. *)
Theorem solvers_floor_at_one :
  (forall (openPrice target : float) (type : PositionType)
          (rate : option float),
      let d := liquidationDenominator openPrice target type rate in
      let r :=
        calculateLeverageFromLiquidationPrice openPrice target type rate in
      (is_nan d = false -> geb r 1 = true)
      /\ ((d <? 0) = true -> r = 1)
      /\ (d = (-0) -> r = 1)
      /\ (d = 0 -> r = infinity)
      /\ (is_nan d = true -> r = nan))
  /\ (forall (risk : float) (type : PositionType) (rate : option float),
        let d := riskDenominator risk rate in
        let r := calculateLeverageFromRiskPercentage risk type rate in
        (is_nan d = false -> geb r 1 = true)
        /\ ((d <? 0) = true -> r = 1)
        /\ (d = (-0) -> r = 1)
        /\ (d = 0 -> r = infinity)
        /\ (is_nan d = true -> r = nan)).
Proof.
  split; [intros o t type rate | intros risk type rate]; cbv zeta.
  - rewrite liquidation_solver_clamps. apply clamped_reciprocal.
  - rewrite risk_solver_clamps. apply clamped_reciprocal.
Qed.

(** C2 as stated fails where the divisor is zero: no risk tolerated at a
    maintenance rate of 0, or a long target equal to the open price, makes
    the solver return [Infinity]; and a zero open price makes it return
    [NaN], which is not at least 1. *)
Lemma zero_denominator_not_clamped :
  (riskDenominator 0 (Some 0) = 0
   /\ calculateLeverageFromRiskPercentage 0 long (Some 0) = infinity
   /\ ~ ((riskDenominator 0 (Some 0) <=? 0) = true ->
         calculateLeverageFromRiskPercentage 0 long (Some 0) = 1))
  /\ (liquidationDenominator 60000 60000 long (Some 0) = 0
      /\ calculateLeverageFromLiquidationPrice 60000 60000 long (Some 0)
         = infinity
      /\ ~ ((liquidationDenominator 60000 60000 long (Some 0) <=? 0) = true ->
            calculateLeverageFromLiquidationPrice 60000 60000 long (Some 0)
            = 1))
  /\ (calculateLeverageFromLiquidationPrice 0 0 long None = nan
      /\ geb (calculateLeverageFromLiquidationPrice 0 0 long None) 1
         = false).
Proof.
  repeat split; try (vm_compute; reflexivity);
    intros Hc; specialize (Hc eq_refl); vm_compute in Hc; discriminate Hc.
Qed.

(** The default scenario under binary64. *)
Lemma default_scenario_binary64 :
  let r := calculateContract (defaultScenario (num := float) long) in
  positionSize r = 100
  /\ positionSizeInCoin r = 0.0016666666666666668
  /\ (abs (positionSizeInCoin r - 0.0016667) <? 0.00000005) = true
  /\ liquidationPrice r = 48300
  /\ riskPercentage r = 19.5
  /\ maxLoss r = 20
  /\ openFeeAmount r = 0.02
  /\ closeFeeAmount r = 0.02
  /\ totalFeeAmount r = 0.04.
Proof. cbv zeta. repeat split; vm_compute; reflexivity. Qed.

(** The default short position under binary64. *)
Lemma short_round_trip_default_binary64 :
  let p := defaultScenario (num := float) short in
  let L := liquidationPrice (calculateContract p) in
  L = 71700
  /\ calculateLeverageFromLiquidationPrice
       (openPrice p) L short (maintainanceRate p) = 5.2631578947368407
  /\ leverage p = 5.
Proof. cbv zeta. repeat split; vm_compute; reflexivity. Qed.

(** The identities proved in exact arithmetic hold under binary64 up to
    rounding only: at leverage 3 the long and short liquidation offsets are
    opposite to within [1e-13], not bit for bit, and the long round trip
    from 48300 gives 5 to within [1e-14]. *)
Lemma binary64_rounding :
  let p := fun type =>
    mkContractParams 60000 20 3 isolated type None None None None None in
  liquidationPricePercent (calculateContract (p long)) = -32.833333333333321
  /\ liquidationPricePercent (calculateContract (p short))
     = 32.833333333333329
  /\ (abs (liquidationPricePercent (calculateContract (p long))
           + liquidationPricePercent (calculateContract (p short)))
      <? 1e-13) = true
  /\ calculateLeverageFromLiquidationPrice 60000 48300 long (Some 0.005)
     = 5.0000000000000009
  /\ calculateLeverageFromRiskPercentage 19.5 long (Some 0.005) = 5.
Proof. cbv zeta. repeat split; vm_compute; reflexivity. Qed.

(** **** What [calculateContract] returns under binary64 *)

Ltac binary64_unfold :=
  cbv [calculateContract nullish add sub mul div Math_abs lit
       Binary64.number
       openPrice margin leverage marginMode positionType maintainanceRate
       openFee closeFee fundingRate fundingPeriodHours
       positionSize positionSizeInCoin liquidationPrice
       liquidationPricePercent riskPercentage maxLoss openFeeAmount
       closeFeeAmount totalFeeAmount fundingFeePerPeriod fundingFeePerDay
       breakEvenPrice profitAtPrice profitPercentAtPrice].

Lemma is_infinity_spec (x : float) :
  is_infinity x
  = match Prim2SF x with S754_infinity _ => true | _ => false end.
Proof.
  unfold is_infinity. rewrite FloatAxioms.eqb_spec, FloatAxioms.abs_spec.
  destruct (Prim2SF x) as [s|s| |s m e]; reflexivity.
Qed.

Lemma is_finite_spec (x : float) :
  is_finite x = true -> finite (Prim2SF x).
Proof.
  unfold is_finite. rewrite is_infinity_spec. intros Hx.
  destruct (is_nan x) eqn:En; [discriminate|].
  apply is_nan_false in En.
  destruct (Prim2SF x) as [s|s| |s m e]; cbn in *; congruence || exact I.
Qed.

Lemma positive_spec (x : float) :
  (0 <? x) = true -> aboveZero (Prim2SF x).
Proof.
  rewrite FloatAxioms.ltb_spec. change (Prim2SF 0) with (S754_zero false).
  destruct (Prim2SF x) as [s|s| |s m e]; cbn; try discriminate;
    destruct s; cbn; congruence || exact (fun _ => I).
Qed.

Lemma positive_finite (x : float) :
  (0 <? x) = true -> is_finite x = true ->
  exists m e, Prim2SF x = S754_finite false m e.
Proof.
  intros Hp Hf. apply positive_spec in Hp. apply is_finite_spec in Hf.
  destruct (Prim2SF x) as [s|s| |s m e]; cbn in *; try tauto.
  destruct s; [tauto|]. exists m, e. reflexivity.
Qed.

Lemma notNegative_cases (x : float) :
  notNegative (Prim2SF x) -> is_nan x = true \/ geb x 0 = true.
Proof.
  intros [Hn|Hs]; [left; apply is_nan_true, Hn|right].
  unfold geb. rewrite FloatAxioms.leb_spec.
  apply zero_leb, Hs.
Qed.

(** C6, as the code has it: when the open price is finite and the position
    size in coin is finite, closing at the open price gives minus the total
    fee, for a long and for a short position: the same binary64 value
    unless the total fee is a zero, and a value equal to it ([===]) unless
    the total fee is [NaN]. *)
Theorem profit_at_open_price (p : ContractParams float) :
  (0 <? openPrice p) = true -> is_finite (openPrice p) = true ->
  is_finite (positionSizeInCoin (calculateContract p)) = true ->
  let r := calculateContract p in
  ((totalFeeAmount r =? 0) = false ->
   profitAtPrice r (openPrice p) = - totalFeeAmount r)
  /\ (is_nan (totalFeeAmount r) = false ->
      (profitAtPrice r (openPrice p) =? - totalFeeAmount r) = true).
Proof.
  destruct p as [o mg l mm pt mr fo fc fr fp]; cbn [openPrice].
  intros Ho Hfin. cbv zeta. binary64_unfold.
  set (coin := mg * l / o).
  set (fee := mg * l * _ + mg * l * _).
  intros Hcoin.
  apply is_finite_spec in Hfin, Hcoin.
  assert (Hdiff : exists s, Prim2SF ((o - o) * coin) = S754_zero s).
  { rewrite FloatAxioms.mul_spec, FloatAxioms.sub_spec, sub_diag
      by exact Hfin.
    apply mul_zero_finite, Hcoin. }
  destruct Hdiff as [s Hs].
  assert (Hprofit : Prim2SF ((o - o) * coin - fee)
                    = SF64sub (S754_zero s) (Prim2SF fee))
    by (rewrite FloatAxioms.sub_spec, Hs; reflexivity).
  assert (Hboth : match pt with
                  | long => (o - o) * coin - fee
                  | short => (o - o) * coin - fee
                  end = (o - o) * coin - fee) by (destruct pt; reflexivity).
  rewrite Hboth. split.
  - intros Hz. apply FloatAxioms.Prim2SF_inj.
    rewrite Hprofit, FloatAxioms.opp_spec.
    apply sub_from_zero. rewrite FloatAxioms.eqb_spec in Hz. exact Hz.
  - intros Hn. rewrite FloatAxioms.eqb_spec, Hprofit, FloatAxioms.opp_spec.
    apply sub_from_zero. apply is_nan_false, Hn.
Qed.

(** C6 as stated fails where the position size in coin overflows: a margin
    of 1e308 at leverage 10, or an open price of 1e-320, makes
    [profitAtPrice(openPrice)] the product of a zero and [Infinity], which
    is [NaN], while minus the total fee is [-Infinity] or [-0.04]. *)
Lemma profit_at_open_price_overflow :
  (let p := mkContractParams 60000 1e308 10 isolated long
              None None None None None in
   let r := calculateContract p in
   (0 <? openPrice p) = true
   /\ positionSizeInCoin r = infinity
   /\ profitAtPrice r (openPrice p) = nan
   /\ - totalFeeAmount r = neg_infinity
   /\ (profitAtPrice r (openPrice p) =? - totalFeeAmount r) = false)
  /\ (let p := mkContractParams 1e-320 20 5 isolated short
                 None None None None None in
      let r := calculateContract p in
      (0 <? openPrice p) = true
      /\ positionSizeInCoin r = infinity
      /\ profitAtPrice r (openPrice p) = nan
      /\ - totalFeeAmount r = -0.04
      /\ (profitAtPrice r (openPrice p) =? - totalFeeAmount r) = false).
Proof. cbv zeta. repeat split; vm_compute; reflexivity. Qed.


(** C8, as the code has it: for an open price above zero the risk
    percentage is [NaN] or at least zero, never negative; it is at least
    zero when the open price and the maintenance rate are finite and the
    leverage is not [NaN]. *)
Theorem riskPercentage_nonnegative (p : ContractParams float) :
  (0 <? openPrice p) = true ->
  let risk := riskPercentage (calculateContract p) in
  (is_nan risk = true \/ geb risk 0 = true)
  /\ (is_finite (openPrice p) = true -> is_nan (leverage p) = false ->
      is_finite (maintainanceRate p ?? 0.005) = true ->
      geb risk 0 = true).
Proof.
  destruct p as [o mg l mm pt mr fo fc fr fp];
    cbn [openPrice leverage maintainanceRate].
  intros Ho. cbv zeta. binary64_unfold.
  change (literal 100 1) with 100. change (literal 1 1) with 1.
  change (literal 5 1000) with 0.005.
  set (rate := match mr with Some v => v | None => 0.005 end).
  set (liq := match pt with
              | long => o * (1 - 1 / l + rate)
              | short => o * (1 + 1 / l - rate)
              end).
  split.
  - apply notNegative_cases.
    rewrite FloatAxioms.mul_spec, FloatAxioms.div_spec, FloatAxioms.abs_spec.
    change (Prim2SF 100) with (S754_finite false 7036874417766400 (-46)).
    apply mul_notNegative, div_notNegative; [apply abs_notNegative|].
    apply positive_spec, Ho.
  - intros Hfin Hl Hrate.
    destruct (positive_finite o Ho Hfin) as [m [e Eo]].
    apply is_finite_spec in Hrate.
    assert (Hinv : Prim2SF (1 / l) <> S754_nan).
    { destruct (not_nan_signed l Hl) as [s Hs].
      eapply signed_not_nan, reciprocal_signed, Hs. }
    assert (Hliq : Prim2SF liq <> S754_nan).
    { unfold liq. destruct pt; rewrite FloatAxioms.mul_spec, Eo;
        apply mul_number.
      - rewrite FloatAxioms.add_spec.
        apply add_number;
          [|apply finite_not_nan, Hrate|right; exact Hrate].
        rewrite FloatAxioms.sub_spec.
        apply sub_number; [discriminate|exact Hinv|left; exact I].
      - rewrite FloatAxioms.sub_spec.
        apply sub_number;
          [|apply finite_not_nan, Hrate|right; exact Hrate].
        rewrite FloatAxioms.add_spec.
        apply add_number; [discriminate|exact Hinv|left; exact I]. }
    unfold geb. rewrite FloatAxioms.leb_spec. apply zero_leb.
    rewrite FloatAxioms.mul_spec, FloatAxioms.div_spec, FloatAxioms.abs_spec.
    change (Prim2SF 100) with (S754_finite false 7036874417766400 (-46)).
    rewrite FloatAxioms.sub_spec, Eo.
    apply mul_positive, div_positive, abs_number.
    apply sub_number; [exact Hliq|discriminate|right; exact I].
Qed.

(** C8 as stated fails for a leverage that is [NaN] and for an open price
    that is [Infinity]: the risk percentage is then [NaN], and [NaN >= 0]
    is false. *)
Lemma riskPercentage_nan :
  (let p := mkContractParams 60000 20 nan isolated long
              None None None None None in
   (0 <? openPrice p) = true
   /\ riskPercentage (calculateContract p) = nan
   /\ geb (riskPercentage (calculateContract p)) 0 = false)
  /\ (let p := mkContractParams infinity 20 5 isolated short
                 None None None None None in
      (0 <? openPrice p) = true
      /\ riskPercentage (calculateContract p) = nan
      /\ geb (riskPercentage (calculateContract p)) 0 = false).
Proof. cbv zeta. repeat split; vm_compute; reflexivity. Qed.


End Binary64Results.

(** C6 at the default long position. *)
Lemma profit_at_open_price_witness :
  (let p := defaultScenario (num := float) long in
   let r := calculateContract p in
   (0 <? openPrice p) = true
   /\ is_finite (openPrice p) = true
   /\ is_finite (positionSizeInCoin r) = true
   /\ (totalFeeAmount r =? 0) = false
   /\ profitAtPrice r (openPrice p) = - totalFeeAmount r)%float.
Proof.
  cbv zeta.
  split; [reflexivity|]. split; [reflexivity|]. split; [reflexivity|].
  split; [reflexivity|].
  refine (proj1 (profit_at_open_price (defaultScenario long) _ _ _) _);
    reflexivity.
Defined.

(** C8 at the default short position. *)
Lemma riskPercentage_nonnegative_witness :
  (let p := defaultScenario (num := float) short in
   (0 <? openPrice p) = true
   /\ is_finite (openPrice p) = true
   /\ is_nan (leverage p) = false
   /\ is_finite (maintainanceRate p ?? 0.005) = true
   /\ Binary64.geb (riskPercentage (calculateContract p)) 0 = true)%float.
Proof.
  cbv zeta.
  split; [reflexivity|]. split; [reflexivity|]. split; [reflexivity|].
  split; [reflexivity|].
  refine (proj2 (riskPercentage_nonnegative (defaultScenario short) _)
            _ _ _);
    reflexivity.
Defined.

(** C2 at a target risk of -10 percent, whose divisor is negative. *)
Lemma solvers_floor_at_one_witness :
  ((riskDenominator (-10) None <? 0) = true
   /\ calculateLeverageFromRiskPercentage (-10) short None = 1)%float.
Proof.
  split; [vm_compute; reflexivity|].
  apply (proj1 (proj2 (proj2 solvers_floor_at_one (-10)%float short None))).
  vm_compute; reflexivity.
Defined.

(** C3: the default scenario of the application, long, isolated, 60000 at
    leverage 5 on a margin of 20, gives a position of 100, about 0.0016667
    coins, a liquidation price of 48300, a risk of 19.5 percent, a maximal
    loss of 20, fees of 0.02 each way and 0.04 in total, under binary64 as
    in exact arithmetic. *)
Theorem default_scenario :
  let b := calculateContract (defaultScenario (num := float) long) in
  let r := calculateContract (defaultScenario (num := R) long) in
  (positionSize b = 100
   /\ (abs (positionSizeInCoin b - 0.0016667) <? 0.00000005) = true
   /\ liquidationPrice b = 48300
   /\ riskPercentage b = 19.5
   /\ maxLoss b = 20
   /\ openFeeAmount b = 0.02
   /\ closeFeeAmount b = 0.02
   /\ totalFeeAmount b = 0.04)%float
  /\ (positionSize r = 100
      /\ Rabs (positionSizeInCoin r - 0.0016667) < 0.00000005
      /\ liquidationPrice r = 48300
      /\ riskPercentage r = 19.5
      /\ maxLoss r = 20
      /\ openFeeAmount r = 0.02
      /\ closeFeeAmount r = 0.02
      /\ totalFeeAmount r = 0.04)%R.
Proof.
  cbv zeta. split.
  - pose proof default_scenario_binary64 as Hb. cbv zeta in Hb. tauto.
  - exact default_scenario_ideal.
Qed.

(** C1 fails for a short position: at the default short position (60000,
    leverage 5, maintenance rate 0.005) the liquidation price is 71700, the
    solver's divisor is positive, and solving 71700 back gives 100/19, about
    5.263, instead of 5. *)
Theorem short_round_trip_default :
  (let p := defaultScenario (num := R) short in
   let L := liquidationPrice (calculateContract p) in
   L = 71700
   /\ 0 < liquidationDenominator (openPrice p) L short (maintainanceRate p)
   /\ calculateLeverageFromLiquidationPrice
        (openPrice p) L short (maintainanceRate p) = 100 / 19
   /\ calculateLeverageFromLiquidationPrice
        (openPrice p) L short (maintainanceRate p) <> leverage p)%R
  /\ (let p := defaultScenario (num := float) short in
      let L := liquidationPrice (calculateContract p) in
      L = 71700
      /\ calculateLeverageFromLiquidationPrice
           (openPrice p) L short (maintainanceRate p) = 5.2631578947368407
      /\ leverage p = 5)%float.
Proof.
  split.
  - exact short_round_trip_default_ideal.
  - exact short_round_trip_default_binary64.
Qed.

(** ** Further properties of the calculator *)

Section LiquidationInputs.

Context {num : Type} `{Number num}.

(** X1: The liquidation price, its signed offset and the risk percentage are
    functions of the open price, the leverage, the direction and the
    maintenance rate alone: margin, margin mode, fee rates and funding do
    not reach them. *)
Theorem liquidation_reads_four_inputs (p q : ContractParams num) :
  openPrice p = openPrice q -> leverage p = leverage q ->
  positionType p = positionType q ->
  maintainanceRate p = maintainanceRate q ->
  liquidationPrice (calculateContract p)
  = liquidationPrice (calculateContract q)
  /\ liquidationPricePercent (calculateContract p)
     = liquidationPricePercent (calculateContract q)
  /\ riskPercentage (calculateContract p)
     = riskPercentage (calculateContract q).
Proof.
  destruct p as [o1 mg1 l1 mm1 pt1 mr1 fo1 fc1 fr1 fp1].
  destruct q as [o2 mg2 l2 mm2 pt2 mr2 fo2 fc2 fr2 fp2].
  cbn. intros -> -> -> ->. repeat split.
Qed.

End LiquidationInputs.

(** At a margin of 1000 with tenfold fee rates and cross mode, the default
    long position keeps its liquidation price. *)
Lemma liquidation_reads_four_inputs_witness :
  liquidationPrice (calculateContract (defaultScenario (num := float) long))
  = liquidationPrice
      (calculateContract
         (mkContractParams 60000 1000 5 cross long (Some 0.005)
            (Some 0.002) (Some 0.002) (Some 0.0001) (Some 4)))%float.
Proof.
  apply (liquidation_reads_four_inputs
           (defaultScenario (num := float) long)
           (mkContractParams 60000 1000 5 cross long (Some 0.005)
              (Some 0.002) (Some 0.002) (Some 0.0001) (Some 4))%float);
    vm_compute; reflexivity.
Defined.

Section IdealExtras.

Local Open Scope R_scope.

(** X2: The risk percentage is the absolute value of the signed liquidation
    offset. *)
Theorem riskPercentage_abs_of_percent (p : ContractParams R) :
  0 < openPrice p ->
  riskPercentage (calculateContract p)
  = Rabs (liquidationPricePercent (calculateContract p)).
Proof.
  destruct p as [o mg l mm pt mr fo fc fr fp]; cbn [openPrice].
  intros Ho. ideal_unfold.
  match goal with
  | |- Rabs ?x / _ * _ = _ => set (a := x)
  end.
  unfold Rdiv. rewrite !Rabs_mult.
  rewrite (Rabs_right (/ o))
    by (apply Rle_ge; left; apply Rinv_0_lt_compat; exact Ho).
  rewrite (Rabs_right 100) by lra. reflexivity.
Qed.

Lemma riskPercentage_formula (p : ContractParams R) :
  0 < openPrice p -> leverage p <> 0 ->
  riskPercentage (calculateContract p)
  = Rabs (1 / leverage p - maintainanceRate p ?? 0.005) * 100.
Proof.
  destruct p as [o mg l mm pt mr fo fc fr fp];
    cbn [openPrice leverage maintainanceRate].
  intros Ho Hl.
  replace (nullish mr 0.005) with (nullish mr (5 / 1000))
    by (destruct mr; cbn; lra).
  destruct pt; ideal_unfold; fold (nullish mr (5 / 1000)).
  - replace (o * (1 - 1 / l + mr ?? 5 / 1000) - o)
      with (- ((1 / l - mr ?? 5 / 1000) * o)) by ring.
    rewrite Rabs_Ropp, Rabs_mult, (Rabs_right o) by lra. field. lra.
  - replace (o * (1 + 1 / l - mr ?? 5 / 1000) - o)
      with ((1 / l - mr ?? 5 / 1000) * o) by ring.
    rewrite Rabs_mult, (Rabs_right o) by lra. field. lra.
Qed.

(** X3: The risk percentage is [|1/leverage - rate| * 100] whatever the
    direction, so a long and a short position with the same numbers run the
    same risk. *)
Theorem riskPercentage_direction_free (p : ContractParams R) :
  0 < openPrice p -> leverage p <> 0 ->
  riskPercentage (calculateContract p)
  = Rabs (1 / leverage p - maintainanceRate p ?? 0.005) * 100
  /\ riskPercentage (calculateContract (withPositionType long p))
     = riskPercentage (calculateContract (withPositionType short p)).
Proof.
  intros Ho Hl. split; [exact (riskPercentage_formula p Ho Hl)|].
  rewrite (riskPercentage_formula (withPositionType long p)),
    (riskPercentage_formula (withPositionType short p));
    destruct p; trivial.
Qed.

(** X4: Solving the risk percentage of a position back for the leverage gives
    the leverage, for either direction, as long as the position is not
    leveraged beyond [1/rate]. *)
Theorem risk_round_trip (p : ContractParams R) :
  0 < openPrice p -> 1 <= leverage p ->
  maintainanceRate p ?? 0.005 <= 1 / leverage p ->
  calculateLeverageFromRiskPercentage
    (riskPercentage (calculateContract p)) (positionType p)
    (maintainanceRate p)
  = leverage p.
Proof.
  intros Ho Hl Hm.
  rewrite (riskPercentage_formula p Ho ltac:(lra)). rewrite Rabs_right by lra.
  destruct p as [o mg l mm pt mr fo fc fr fp];
    cbn [openPrice leverage maintainanceRate positionType] in *.
  ideal_unfold.
  replace (match mr with Some v => v | None => 0.005 end)
    with (match mr with Some v => v | None => 5 / 1000 end)
    by (destruct mr; lra).
  set (m := match mr with Some v => v | None => 5 / 1000 end).
  replace ((1 / l - m) * 100 / 100 + m) with (/ l) by (field; lra).
  replace (1 / / l) with l by (field; lra).
  apply Rmax_right, Hl.
Qed.

(** X5: A long position gains with every rise of the closing price and a short
    one with every fall, as soon as the position is not empty. *)
Theorem profit_monotone (p : ContractParams R) (price1 price2 : R) :
  0 < openPrice p -> 0 < margin p * leverage p -> price1 < price2 ->
  match positionType p with
  | long =>
      profitAtPrice (calculateContract p) price1
      < profitAtPrice (calculateContract p) price2
  | short =>
      profitAtPrice (calculateContract p) price2
      < profitAtPrice (calculateContract p) price1
  end.
Proof.
  destruct p as [o mg l mm pt mr fo fc fr fp];
    cbn [openPrice margin leverage positionType].
  intros Ho Hs Hlt.
  assert (Hc : 0 < mg * l / o) by (apply Rdiv_lt_0_compat; assumption).
  destruct pt; ideal_unfold; set (c := mg * l / o) in *;
    assert (0 < (price2 - price1) * c)
      by (apply Rmult_lt_0_compat; lra);
    lra.
Qed.

(** X6: The price at which the profit is exactly zero: the open price moved by
    the sum of the two fee rates, up for a long position and down for a
    short one. *)
Theorem profit_zero_price (p : ContractParams R) (price : R) :
  0 < openPrice p -> margin p * leverage p <> 0 ->
  (profitAtPrice (calculateContract p) price = 0
   <-> price
       = openPrice p
         * match positionType p with
           | long => 1 + (openFee p ?? 0.0002 + closeFee p ?? 0.0002)
           | short => 1 - (openFee p ?? 0.0002 + closeFee p ?? 0.0002)
           end).
Proof.
  destruct p as [o mg l mm pt mr fo fc fr fp];
    cbn [openPrice margin leverage positionType openFee closeFee].
  intros Ho Hs.
  replace (nullish fo 0.0002) with (nullish fo (2 / 10000))
    by (destruct fo; cbn; lra).
  replace (nullish fc 0.0002) with (nullish fc (2 / 10000))
    by (destruct fc; cbn; lra).
  destruct pt; ideal_unfold;
    fold (nullish fo (2 / 10000)); fold (nullish fc (2 / 10000));
    set (a := fo ?? 2 / 10000); set (b := fc ?? 2 / 10000);
    set (s := mg * l) in *.
  - replace ((price - o) * (s / o) - (s * a + s * b))
      with (s * ((price - o * (1 + (a + b))) / o)) by (field; lra).
    split.
    + intros Hz. apply Rmult_integral in Hz. destruct Hz as [Hz|Hz]; [tauto|].
      assert (Hn : price - o * (1 + (a + b)) = 0).
      { replace (price - o * (1 + (a + b)))
          with ((price - o * (1 + (a + b))) / o * o) by (field; lra).
        rewrite Hz. ring. }
      lra.
    + intros ->. replace (o * (1 + (a + b)) - o * (1 + (a + b))) with 0 by ring.
      unfold Rdiv. ring.
  - replace ((o - price) * (s / o) - (s * a + s * b))
      with (s * ((o * (1 - (a + b)) - price) / o)) by (field; lra).
    split.
    + intros Hz. apply Rmult_integral in Hz. destruct Hz as [Hz|Hz]; [tauto|].
      assert (Hn : o * (1 - (a + b)) - price = 0).
      { replace (o * (1 - (a + b)) - price)
          with ((o * (1 - (a + b)) - price) / o * o) by (field; lra).
        rewrite Hz. ring. }
      lra.
    + intros ->. replace (o * (1 - (a + b)) - o * (1 - (a + b))) with 0 by ring.
      unfold Rdiv. ring.
Qed.

(** X7: What a long position gains before fees a short position with the same
    numbers loses: the two profits add up to minus twice the total fee. *)
Theorem profit_long_short_mirror (p : ContractParams R) (price : R) :
  0 < openPrice p ->
  profitAtPrice (calculateContract (withPositionType long p)) price
  + profitAtPrice (calculateContract (withPositionType short p)) price
  = - 2 * totalFeeAmount (calculateContract p).
Proof.
  destruct p as [o mg l mm pt mr fo fc fr fp]; cbn [openPrice].
  intros Ho. ideal_unfold. field. lra.
Qed.

(** X8: Closed at its liquidation price, a position of either direction has
    lost the margin less the maintenance margin, plus the fees. *)
Theorem profit_at_liquidationPrice (p : ContractParams R) :
  0 < openPrice p -> leverage p <> 0 ->
  profitAtPrice (calculateContract p) (liquidationPrice (calculateContract p))
  = - (margin p
       - (maintainanceRate p ?? 0.005) * positionSize (calculateContract p))
    - totalFeeAmount (calculateContract p).
Proof.
  destruct p as [o mg l mm pt mr fo fc fr fp];
    cbn [openPrice margin leverage maintainanceRate].
  intros Ho Hl.
  replace (nullish mr 0.005) with (nullish mr (5 / 1000))
    by (destruct mr; cbn; lra).
  destruct pt; ideal_unfold; fold (nullish mr (5 / 1000));
    field; split; assumption || lra.
Qed.

(** X9: The profit percentage does not depend on the margin: it is the leverage
    times the price move net of the two fee rates, in percent. *)
Theorem profitPercent_formula (p : ContractParams R) (price : R) :
  0 < openPrice p -> margin p <> 0 ->
  profitPercentAtPrice (calculateContract p) price
  = leverage p
    * (match positionType p with
       | long => (price - openPrice p) / openPrice p
       | short => (openPrice p - price) / openPrice p
       end
       - (openFee p ?? 0.0002 + closeFee p ?? 0.0002))
    * 100.
Proof.
  destruct p as [o mg l mm pt mr fo fc fr fp];
    cbn [openPrice margin leverage positionType openFee closeFee].
  intros Ho Hm.
  replace (nullish fo 0.0002) with (nullish fo (2 / 10000))
    by (destruct fo; cbn; lra).
  replace (nullish fc 0.0002) with (nullish fc (2 / 10000))
    by (destruct fc; cbn; lra).
  destruct pt; ideal_unfold;
    fold (nullish fo (2 / 10000)); fold (nullish fc (2 / 10000));
    field; split; assumption || lra.
Qed.

(** X10: A long position opened at the leverage the solver returns for a target
    is liquidated at that target, whenever the solver did not clamp. *)
Theorem long_target_is_met (p : ContractParams R) (target : R) :
  positionType p = long -> 0 < openPrice p ->
  0 < liquidationDenominator (openPrice p) target long (maintainanceRate p)
      <= 1 ->
  leverage p
  = calculateLeverageFromLiquidationPrice
      (openPrice p) target long (maintainanceRate p) ->
  liquidationPrice (calculateContract p) = target.
Proof.
  destruct p as [o mg l mm pt mr fo fc fr fp];
    cbn [openPrice leverage positionType maintainanceRate].
  intros -> Ho. ideal_unfold.
  set (m := match mr with Some v => v | None => 5 / 1000 end).
  set (d := 1 - target / o + m).
  intros [Hd0 Hd1] ->.
  assert (H1 : 1 <= 1 / d).
  { unfold Rdiv. rewrite Rmult_1_l.
    rewrite <- Rinv_1 at 1. apply Rinv_le_contravar; lra. }
  rewrite Rmax_right by exact H1.
  replace (1 / (1 / d)) with d by (field; lra).
  unfold d. field. lra.
Qed.

End IdealExtras.

(** The extras at the default position. *)
Lemma riskPercentage_abs_of_percent_witness :
  (0 < 60000
   /\ riskPercentage (calculateContract (defaultScenario long))
      = Rabs (liquidationPricePercent
                (calculateContract (defaultScenario long))))%R.
Proof.
  split; [lra|].
  refine (riskPercentage_abs_of_percent (defaultScenario long) _).
  cbn; lra.
Defined.

Lemma riskPercentage_direction_free_witness :
  (0 < 60000 /\ 5 <> 0
   /\ riskPercentage (calculateContract (defaultScenario long))
      = riskPercentage (calculateContract (defaultScenario short)))%R.
Proof.
  split; [lra|]. split; [lra|].
  refine (proj2 (riskPercentage_direction_free (defaultScenario long) _ _));
    cbn; lra.
Defined.

Lemma risk_round_trip_witness :
  (0 < 60000 /\ 1 <= 5 /\ 0.005 <= 1 / 5
   /\ calculateLeverageFromRiskPercentage
        (riskPercentage (calculateContract (defaultScenario short)))
        short (Some 0.005)
      = 5)%R.
Proof.
  split; [lra|]. split; [lra|]. split; [lra|].
  replace 0.005%R with (Ideal.literal 5 1000)
    by (unfold Ideal.literal; lra).
  refine (risk_round_trip (defaultScenario short) _ _ _); cbn; lra.
Defined.

Lemma profit_monotone_witness :
  (0 < 60000 /\ 0 < 20 * 5 /\ 60000 < 62000
   /\ profitAtPrice (calculateContract (defaultScenario long)) 60000
      < profitAtPrice (calculateContract (defaultScenario long)) 62000)%R.
Proof.
  split; [lra|]. split; [lra|]. split; [lra|].
  refine (profit_monotone (defaultScenario long) 60000 62000 _ _ _);
    cbn; lra.
Defined.

Lemma profit_zero_price_witness :
  (0 < 60000 /\ 20 * 5 <> 0
   /\ profitAtPrice (calculateContract (defaultScenario long))
        (60000 * (1 + (Ideal.literal 2 10000 + Ideal.literal 2 10000)))
      = 0)%R.
Proof.
  split; [lra|]. split; [lra|].
  refine (proj2 (profit_zero_price (defaultScenario long) _ _ _) _);
    cbn; lra.
Defined.

Lemma profit_long_short_mirror_witness :
  (0 < 60000
   /\ profitAtPrice (calculateContract (defaultScenario long)) 62000
      + profitAtPrice (calculateContract (defaultScenario short)) 62000
      = - 2 * totalFeeAmount (calculateContract (defaultScenario long)))%R.
Proof.
  split; [lra|].
  refine (profit_long_short_mirror (defaultScenario long) 62000 _).
  cbn; lra.
Defined.

Lemma profit_at_liquidationPrice_witness :
  (0 < 60000 /\ 5 <> 0
   /\ profitAtPrice (calculateContract (defaultScenario short))
        (liquidationPrice (calculateContract (defaultScenario short)))
      = - (20 - Ideal.literal 5 1000
                * positionSize (calculateContract (defaultScenario short)))
        - totalFeeAmount (calculateContract (defaultScenario short)))%R.
Proof.
  split; [lra|]. split; [lra|].
  refine (profit_at_liquidationPrice (defaultScenario short) _ _);
    cbn; lra.
Defined.

Lemma profitPercent_formula_witness :
  (0 < 60000 /\ 20 <> 0
   /\ profitPercentAtPrice (calculateContract (defaultScenario long)) 62000
      = 5 * ((62000 - 60000) / 60000
             - (Ideal.literal 2 10000 + Ideal.literal 2 10000)) * 100)%R.
Proof.
  split; [lra|]. split; [lra|].
  refine (profitPercent_formula (defaultScenario long) 62000 _ _);
    cbn; lra.
Defined.

Lemma long_target_is_met_witness :
  let p :=
    mkContractParams 60000%R 20%R
      (calculateLeverageFromLiquidationPrice
         60000%R 48300%R long (Some 0.005%R))
      isolated long (Some 0.005%R) None None None None in
  (0 < liquidationDenominator 60000 48300 long (Some 0.005) <= 1
   /\ liquidationPrice (calculateContract p) = 48300)%R.
Proof.
  cbv zeta.
  assert (Hd : (0 < liquidationDenominator 60000 48300 long (Some 0.005)
                <= 1)%R)
    by (ideal_unfold; lra).
  split; [exact Hd|].
  refine (long_target_is_met
            (mkContractParams 60000%R 20%R
               (calculateLeverageFromLiquidationPrice
                  60000%R 48300%R long (Some 0.005%R))
               isolated long (Some 0.005%R) None None None None)
            48300%R eq_refl _ Hd eq_refl).
  cbn; lra.
Defined.

(** ** Key obfuscation: [simpleEncrypt], [simpleDecrypt],
    [getLocalEncryptionKey] and [getMaskedApiKey] *)

Module Base64Facts.

Import ListNotations JS.

Local Open Scope N_scope.

Ltac ndiv := zify; Z.to_euclidean_division_equations; lia.

(** Induction three elements at a time. *)
Lemma list_ind3 (A : Type) (P : list A -> Prop) :
  P [] -> (forall a, P [a]) -> (forall a b, P [a; b]) ->
  (forall a b c rest, P rest -> P (a :: b :: c :: rest)) ->
  forall l, P l.
Proof.
  intros H0 H1 H2 H3.
  assert (H : forall l, P l /\ (forall a, P (a :: l)) /\ (forall a b, P (a :: b :: l))).
  { induction l as [|x l (IH0 & IH1 & IH2)]; repeat split; auto. }
  intros l. apply H.
Qed.

Lemma below_64_cases (f : N -> bool) :
  forallb f (map N.of_nat (seq 0 64)) = true ->
  forall i, i < 64 -> f i = true.
Proof.
  intros Hf i Hi. rewrite forallb_forall in Hf. apply Hf.
  apply in_map_iff. exists (N.to_nat i). split; [lia|].
  apply in_seq. lia.
Qed.

Lemma sextetOk_all (i : N) : i < 64 -> sextetOk i = true.
Proof. apply below_64_cases. vm_compute. reflexivity. Qed.

Lemma base64Index_Char (i : N) : i < 64 -> base64Index (base64Char i) = Some i.
Proof.
  intros Hi. pose proof (sextetOk_all i Hi) as H. unfold sextetOk in H.
  destruct (base64Index (base64Char i)) as [j|]; [|discriminate].
  apply andb_prop in H. destruct H as [H _].
  apply andb_prop in H. destruct H as [H _].
  apply N.eqb_eq in H. congruence.
Qed.

Lemma base64Char_not_space (i : N) :
  i < 64 -> isAsciiWhitespace (base64Char i) = false.
Proof.
  intros Hi. pose proof (sextetOk_all i Hi) as H. unfold sextetOk in H.
  destruct (base64Index (base64Char i)) as [j|]; [|discriminate].
  apply andb_prop in H. destruct H as [H _].
  apply andb_prop in H. destruct H as [_ H].
  apply negb_true_iff in H. exact H.
Qed.

Lemma base64Char_not_pad (i : N) : i < 64 -> (base64Char i =? 61) = false.
Proof.
  intros Hi. pose proof (sextetOk_all i Hi) as H. unfold sextetOk in H.
  destruct (base64Index (base64Char i)) as [j|]; [|discriminate].
  apply andb_prop in H. destruct H as [_ H].
  apply negb_true_iff in H. exact H.
Qed.

Lemma bytes_forallb (s : jsstring) :
  forallb (fun c => c <=? 255) s = true <-> bytes s.
Proof.
  unfold bytes. rewrite forallb_forall, Forall_forall.
  split; intros H c Hc; specialize (H c Hc); apply N.leb_le; exact H.
Qed.

Lemma sextets_below (s : jsstring) :
  bytes s -> Forall (fun i => i < 64) (sextets s).
Proof.
  unfold bytes. induction s as [| a | a b | a b c rest IH] using list_ind3;
    intros Hs; cbn [sextets].
  - constructor.
  - inversion_clear Hs.
    repeat (apply Forall_cons; [ndiv|]). apply Forall_nil.
  - inversion_clear Hs as [|? ? Ha Hs']. inversion_clear Hs'.
    repeat (apply Forall_cons; [ndiv|]). apply Forall_nil.
  - inversion_clear Hs as [|? ? Ha Hs1]. inversion_clear Hs1 as [|? ? Hb Hs2].
    inversion_clear Hs2 as [|? ? Hc Hs3].
    repeat (apply Forall_cons; [ndiv|]). auto.
Qed.

Lemma octets_sextets (s : jsstring) : bytes s -> octets (sextets s) = s.
Proof.
  unfold bytes. induction s as [| a | a b | a b c rest IH] using list_ind3;
    intros Hs; cbn [sextets octets].
  - reflexivity.
  - inversion_clear Hs. f_equal. ndiv.
  - inversion_clear Hs as [|? ? Ha Hs']. inversion_clear Hs' as [|? ? Hb _].
    cbv zeta. f_equal; [|f_equal]; ndiv.
  - inversion_clear Hs as [|? ? Ha Hs1]. inversion_clear Hs1 as [|? ? Hb Hs2].
    inversion_clear Hs2 as [|? ? Hc Hs3].
    cbv zeta. rewrite (IH Hs3).
    f_equal; [|f_equal; [|f_equal]]; ndiv.
Qed.

Lemma padding_step (a b c : N) (rest : jsstring) :
  padding (a :: b :: c :: rest) = padding rest.
Proof.
  unfold padding. cbn [List.length].
  replace (N.of_nat (S (S (S (List.length rest)))) mod 3)
    with (N.of_nat (List.length rest) mod 3) by ndiv.
  reflexivity.
Qed.

(** The three shapes of an encoding. *)
Lemma encoding_shape (s : jsstring) :
  exists k : nat,
    (List.length s = (3 * k)%nat /\ padding s = []
     /\ List.length (sextets s) = (4 * k)%nat)
    \/ (List.length s = (3 * k + 1)%nat /\ padding s = [61; 61]
        /\ List.length (sextets s) = (4 * k + 2)%nat)
    \/ (List.length s = (3 * k + 2)%nat /\ padding s = [61]
        /\ List.length (sextets s) = (4 * k + 3)%nat).
Proof.
  induction s as [| a | a b | a b c rest IH] using list_ind3.
  - exists 0%nat. left. repeat split.
  - exists 0%nat. right. left. repeat split.
  - exists 0%nat. right. right. repeat split.
  - destruct IH as [k IH]. exists (S k). rewrite padding_step.
    cbn [sextets List.length].
    destruct IH as [(H1 & H2 & H3)|[(H1 & H2 & H3)|(H1 & H2 & H3)]];
      [left|right; left|right; right]; repeat split; try assumption; lia.
Qed.

Lemma filter_all (A : Type) (f : A -> bool) (l : list A) :
  Forall (fun x => f x = true) l -> filter f l = l.
Proof.
  induction 1 as [|x l Hx Hl IH]; cbn; [reflexivity|].
  rewrite Hx, IH. reflexivity.
Qed.

Lemma traverse_chars (sx : list N) :
  Forall (fun i => i < 64) sx -> traverse (map base64Char sx) = Some sx.
Proof.
  induction 1 as [|i sx Hi Hsx IH]; cbn; [reflexivity|].
  rewrite (base64Index_Char i Hi), IH. reflexivity.
Qed.

(** Stripping the padding of an encoding leaves its characters. *)
Lemma stripPadding_encoding (body pad : jsstring) :
  Forall (fun c => (c =? 61) = false) body ->
  pad = [] \/ pad = [61] \/ pad = [61; 61] ->
  N.of_nat (List.length (body ++ pad)) mod 4 = 0 ->
  stripPadding (body ++ pad) = body.
Proof.
  intros Hbody Hpad Hlen. unfold stripPadding.
  rewrite Hlen. cbn [N.eqb].
  assert (Hrev : Forall (fun c => (c =? 61) = false) (rev body))
    by (apply Forall_rev; exact Hbody).
  destruct Hpad as [-> | [-> | ->]]; rewrite rev_app_distr; cbn [rev app].
  - rewrite app_nil_r.
    destruct (rev body) as [|c1 [|c2 r]] eqn:E; [reflexivity| |];
      apply Forall_inv in Hrev; rewrite Hrev; reflexivity.
  - destruct (rev body) as [|c2 r] eqn:E.
    + cbn. apply (f_equal (@rev N)) in E. rewrite rev_involutive in E.
      symmetry. exact E.
    + apply Forall_inv in Hrev.
      change (61 =? 61) with true. cbv iota. rewrite Hrev.
      change (rev r ++ [c2]) with (rev (c2 :: r)).
      rewrite <- E. apply rev_involutive.
  - change (61 =? 61) with true. cbv iota. apply rev_involutive.
Qed.

(** [atob] undoes [btoa]. *)
Lemma atob_btoa (s e : jsstring) : btoa s = Some e -> atob e = Some s.
Proof.
  unfold btoa. destruct (forallb _ s) eqn:Hb; [|discriminate].
  intros [= <-]. apply bytes_forallb in Hb.
  pose proof (sextets_below s Hb) as Hsx.
  assert (Hbody : Forall (fun c => (c =? 61) = false)
                    (map base64Char (sextets s))).
  { apply Forall_map. eapply Forall_impl; [|exact Hsx].
    intros i Hi. apply base64Char_not_pad, Hi. }
  assert (Hpad : Forall (fun c => negb (isAsciiWhitespace c) = true)
                   (padding s)).
  { unfold padding. destruct (_ mod 3) as [|[|[]|]]; repeat constructor. }
  assert (Hfilter : filter (fun c => negb (isAsciiWhitespace c))
                      (map base64Char (sextets s) ++ padding s)
                    = map base64Char (sextets s) ++ padding s).
  { apply filter_all, Forall_app. split; [|exact Hpad].
    apply Forall_map. eapply Forall_impl; [|exact Hsx].
    intros i Hi. cbn. rewrite (base64Char_not_space i Hi). reflexivity. }
  unfold atob. rewrite Hfilter.
  destruct (encoding_shape s) as [k Hk].
  assert (Hlen4 : N.of_nat (List.length (map base64Char (sextets s)
                                          ++ padding s)) mod 4 = 0).
  { rewrite length_app, length_map.
    destruct Hk as [(_ & -> & ->)|[(_ & -> & ->)|(_ & -> & ->)]];
      cbn [List.length]; ndiv. }
  rewrite stripPadding_encoding; [|exact Hbody| |exact Hlen4].
  - rewrite length_map.
    assert (Hne : (N.of_nat (List.length (sextets s)) mod 4 =? 1) = false).
    { apply N.eqb_neq.
      destruct Hk as [(_ & _ & ->)|[(_ & _ & ->)|(_ & _ & ->)]]; ndiv. }
    rewrite Hne, (traverse_chars _ Hsx), (octets_sextets s Hb). reflexivity.
  - destruct Hk as [(_ & -> & _)|[(_ & -> & _)|(_ & -> & _)]]; auto.
Qed.

End Base64Facts.

Module ObfuscationFacts.

Import ListNotations JS Obfuscation Base64Facts.

Local Open Scope N_scope.

Lemma fromCharCode_land (x : N) : fromCharCode x = N.land x (N.ones 16).
Proof. unfold fromCharCode. rewrite N.land_ones. reflexivity. Qed.

(** XOR-ing twice with the same unit gives the unit back, also through the
    truncation to 16 bits. *)
Lemma xor_twice (c k : N) :
  c < 65536 ->
  fromCharCode (N.lxor (fromCharCode (N.lxor c k)) k) = c.
Proof.
  intros Hc. rewrite !fromCharCode_land.
  transitivity (N.land c (N.ones 16)).
  - apply N.bits_inj. intros n.
    rewrite !N.land_spec, !N.lxor_spec, !N.land_spec, !N.lxor_spec.
    destruct (N.testbit c n), (N.testbit k n), (N.testbit (N.ones 16) n);
      reflexivity.
  - rewrite N.land_ones. apply N.mod_small. exact Hc.
Qed.

Lemma xorFrom_length (text key : jsstring) :
  forall i, List.length (xorFrom i text key) = List.length text.
Proof. induction text as [|c rest IH]; intros i; cbn; [|rewrite IH]; reflexivity. Qed.

Lemma xorFrom_twice (text key : jsstring) :
  wellFormed text ->
  forall i, xorFrom i (xorFrom i text key) key = text.
Proof.
  unfold wellFormed. induction 1 as [|c rest Hc Hrest IH]; intros i; cbn [xorFrom].
  - reflexivity.
  - rewrite IH. f_equal. unfold bitxor. apply xor_twice, Hc.
Qed.

Lemma lxor_below (a b : N) (n : N) :
  a < 2 ^ n -> b < 2 ^ n -> N.lxor a b < 2 ^ n.
Proof.
  intros Ha Hb.
  destruct (N.eq_dec (N.lxor a b) 0) as [E|E];
    [rewrite E; apply N.neq_0_lt_0, N.pow_nonzero; discriminate|].
  apply N.log2_lt_pow2; [lia|].
  eapply N.le_lt_trans; [apply N.log2_lxor|].
  apply N.max_lub_lt.
  - destruct (N.eq_dec a 0) as [->|Ea].
    + cbn. destruct (N.eq_dec n 0) as [->|En]; [|lia].
      cbn in Hb. assert (b = 0) by lia. subst. cbn in E. congruence.
    + apply N.log2_lt_pow2; [lia|exact Ha].
  - destruct (N.eq_dec b 0) as [->|Eb].
    + cbn. destruct (N.eq_dec n 0) as [->|En]; [|lia].
      cbn in Ha. assert (a = 0) by lia. subst. cbn in E. congruence.
    + apply N.log2_lt_pow2; [lia|exact Hb].
Qed.

Lemma keyUnit_bound (key : jsstring) (i : N) (b : N) :
  Forall (fun c => c <= b) key -> keyUnit key i <= b.
Proof.
  intros Hk. unfold keyUnit, charCodeAt.
  destruct (nth_error key _) as [k|] eqn:E; [|lia].
  apply nth_error_In in E. rewrite Forall_forall in Hk. apply Hk, E.
Qed.

Lemma xorFrom_unfold (c : N) (rest key : jsstring) (i : N) :
  xorFrom i (c :: rest) key
  = fromCharCode (N.lxor c (keyUnit key i)) :: xorFrom (i + 1) rest key.
Proof. reflexivity. Qed.

(** With a key of bytes, the obfuscated text is made of bytes exactly when
    the text is. *)
Lemma xorFrom_bytes (text key : jsstring) :
  bytes key -> wellFormed text ->
  forall i, bytes (xorFrom i text key) <-> bytes text.
Proof.
  intros Hk. unfold wellFormed, bytes.
  induction 1 as [|c rest Hc Hrest IH]; intros i.
  - cbn. split; constructor.
  - rewrite xorFrom_unfold.
    pose proof (keyUnit_bound key i 255 Hk) as Hku.
    set (k := keyUnit key i) in *.
    assert (Hx : N.lxor c k < 2 ^ 16)
      by (apply lxor_below; change (2 ^ 16) with 65536; lia).
    assert (Hm : fromCharCode (N.lxor c k) = N.lxor c k)
      by (apply N.mod_small; exact Hx).
    rewrite Hm.
    assert (Hhigh : N.shiftr (N.lxor c k) 8 = N.shiftr c 8).
    { rewrite N.shiftr_lxor.
      replace (N.shiftr k 8) with 0; [apply N.lxor_0_r|].
      symmetry. rewrite N.shiftr_div_pow2. apply N.div_small.
      change (2 ^ 8) with 256. lia. }
    rewrite !N.shiftr_div_pow2 in Hhigh. change (2 ^ 8) with 256 in Hhigh.
    split; intros H; inversion_clear H as [|? ? Hh Ht];
      (constructor; [|apply (IH (i + 1)); exact Ht]).
    + assert (c / 256 = 0) by (rewrite <- Hhigh; apply N.div_small; lia).
      ndiv.
    + assert (N.lxor c k / 256 = 0) by (rewrite Hhigh; apply N.div_small; lia).
      ndiv.
Qed.

Lemma toInt32_range (z : Z) :
  (- 2 ^ 31 <= toInt32 z < 2 ^ 31)%Z.
Proof.
  unfold toInt32. change (2 ^ 31)%Z with 2147483648%Z.
  change (2 ^ 32)%Z with 4294967296%Z. Z.div_mod_to_equations. lia.
Qed.

Lemma toInt32_congr (a b k : Z) :
  (a = b + k * 2 ^ 32)%Z -> toInt32 a = toInt32 b.
Proof.
  unfold toInt32. change (2 ^ 31)%Z with 2147483648%Z.
  change (2 ^ 32)%Z with 4294967296%Z. intros ->.
  Z.div_mod_to_equations. lia.
Qed.

Lemma toInt32_residue (z : Z) : exists k, (toInt32 z = z + k * 2 ^ 32)%Z.
Proof.
  unfold toInt32. change (2 ^ 31)%Z with 2147483648%Z.
  change (2 ^ 32)%Z with 4294967296%Z.
  exists (- ((z + 2147483648) / 4294967296))%Z.
  Z.div_mod_to_equations. lia.
Qed.

Lemma hashStep_residue (H : Z) (c : N) :
  hashStep (toInt32 H) c = toInt32 (31 * H + Z.of_N c)%Z.
Proof.
  unfold hashStep. change (2 ^ 5)%Z with 32%Z.
  destruct (toInt32_residue H) as [k1 E1].
  destruct (toInt32_residue (toInt32 (toInt32 H) * 32)) as [k2 E2].
  destruct (toInt32_residue (toInt32 H)) as [k3 E3].
  apply (toInt32_congr _ _ (32 * (k3 + k1) + k2 - k1)%Z). lia.
Qed.

Lemma hash_fold (s : jsstring) :
  forall H : Z,
    fold_left hashStep s (toInt32 H)
    = toInt32 (fold_left (fun h c => 31 * h + Z.of_N c)%Z s H).
Proof.
  induction s as [|c rest IH]; intros H; cbn [fold_left]; [reflexivity|].
  rewrite hashStep_residue. apply IH.
Qed.

Lemma digitValue_Char (d : N) : d < 36 -> digitValue (digitChar d) = d.
Proof.
  intros Hd. unfold digitValue, digitChar.
  destruct (d <? 10) eqn:E.
  - apply N.ltb_lt in E.
    assert (E' : (48 + d <? 58) = true) by (apply N.ltb_lt; lia).
    rewrite E'. lia.
  - apply N.ltb_ge in E.
    assert (E' : (97 + (d - 10) <? 58) = false) by (apply N.ltb_ge; lia).
    rewrite E'. lia.
Qed.

Lemma digitChar_isKeyChar (d : N) : d < 36 -> isKeyChar (digitChar d).
Proof.
  intros Hd. unfold isKeyChar, digitChar.
  destruct (d <? 10) eqn:E; [apply N.ltb_lt in E|apply N.ltb_ge in E]; lia.
Qed.

Lemma digits36_spec (fuel : nat) :
  forall (n : N) (acc : jsstring),
    n < 2 ^ N.of_nat fuel ->
    parseInt36 (digits36 (S fuel) n acc)
    = fold_left (fun v c => v * 36 + digitValue c) acc n
    /\ (Forall isKeyChar acc ->
        Forall isKeyChar (digits36 (S fuel) n acc))
    /\ digits36 (S fuel) n acc <> []
    /\ forall k : nat, n < 36 ^ N.of_nat (S k) ->
        (List.length (digits36 (S fuel) n acc)
         <= S k + List.length acc)%nat.
Proof.
  induction fuel as [|fuel IH]; intros n acc Hn.
  - change (2 ^ N.of_nat 0) with 1 in Hn. assert (n = 0) by lia. subst n.
    cbn. repeat split; try discriminate.
    + intros H. constructor; [|exact H]. unfold isKeyChar. lia.
    + intros k _. lia.
  - assert (Hd : n mod 36 < 36) by (apply N.mod_lt; discriminate).
    assert (Hq : n / 36 < 2 ^ N.of_nat fuel).
    { rewrite Nat2N.inj_succ, N.pow_succ_r' in Hn.
      apply N.Div0.div_lt_upper_bound. lia. }
    specialize (IH (n / 36) (digitChar (n mod 36) :: acc) Hq).
    destruct IH as (IH1 & IH2 & IH3 & IH4).
    change (digits36 (S (S fuel)) n acc)
      with (if n / 36 =? 0 then digitChar (n mod 36) :: acc
            else digits36 (S fuel) (n / 36) (digitChar (n mod 36) :: acc)).
    assert (Hstep : (n / 36) * 36 + digitValue (digitChar (n mod 36)) = n)
      by (rewrite digitValue_Char by exact Hd; ndiv).
    destruct (n / 36 =? 0) eqn:E.
    + apply N.eqb_eq in E. repeat split; try discriminate.
      * unfold parseInt36. cbn [fold_left]. rewrite <- Hstep at 2.
        rewrite E. reflexivity.
      * intros H. constructor; [apply digitChar_isKeyChar, Hd|exact H].
      * intros k _. cbn [List.length]. lia.
    + apply N.eqb_neq in E. repeat split.
      * rewrite IH1. cbn [fold_left]. rewrite Hstep. reflexivity.
      * intros H. apply IH2. constructor; [apply digitChar_isKeyChar, Hd|exact H].
      * exact IH3.
      * intros [|k] Hk.
        { change (36 ^ N.of_nat 1) with 36 in Hk.
          assert (n / 36 = 0) by (apply N.div_small; exact Hk). congruence. }
        { assert (Hk' : n / 36 < 36 ^ N.of_nat (S k)).
          { rewrite (Nat2N.inj_succ (S k)), N.pow_succ_r' in Hk.
            apply N.Div0.div_lt_upper_bound. lia. }
          specialize (IH4 k Hk'). cbn [List.length] in IH4. lia. }
Qed.

Lemma hashOf_range (s : jsstring) : (- 2 ^ 31 <= hashOf s < 2 ^ 31)%Z.
Proof.
  unfold hashOf. change 0%Z with (toInt32 0). rewrite hash_fold.
  apply toInt32_range.
Qed.

Lemma localKey_chars (userAgent language timezone : jsstring) :
  Forall isKeyChar (getLocalEncryptionKey userAgent language timezone).
Proof.
  unfold getLocalEncryptionKey, toString36.
  set (n := Z.to_N _).
  assert (Hn : n < 2 ^ N.of_nat (N.to_nat (N.size n)))
    by (rewrite N2Nat.id; apply N.size_gt).
  destruct (digits36_spec _ n [] Hn) as (_ & H2 & _).
  apply H2. constructor.
Qed.

End ObfuscationFacts.

Section ObfuscationResults.

Import ListNotations JS Obfuscation Base64Facts ObfuscationFacts.

Local Open Scope N_scope.

(** X11: Decrypting what [simpleEncrypt] returned, with the same key, gives the
    text back, whatever the key, the empty one included. *)
Theorem decrypt_encrypt (text key e : jsstring) :
  wellFormed text ->
  simpleEncrypt text key = Some e -> simpleDecrypt e key = text.
Proof.
  intros Hwf He. unfold simpleEncrypt in He. unfold simpleDecrypt.
  rewrite (atob_btoa _ _ He). apply xorFrom_twice, Hwf.
Qed.

(** X12: With a key of code units up to [0xFF], [simpleEncrypt] returns exactly
    when every code unit of the text is up to [0xFF]; on any other text
    [btoa] throws. *)
Theorem encrypt_succeeds_iff_bytes (text key : jsstring) :
  bytes key -> wellFormed text ->
  (simpleEncrypt text key <> None <-> bytes text).
Proof.
  intros Hk Hwf. rewrite <- (xorFrom_bytes text key Hk Hwf 0).
  rewrite <- bytes_forallb. unfold simpleEncrypt, btoa.
  destruct (forallb _ _); split; congruence.
Qed.

(** X13: What [simpleEncrypt] returns has four characters for every three code
    units of the text, rounded up, all of them of the base64 alphabet or
    [=], and is empty exactly when the text is. *)
Theorem encrypt_shape (text key e : jsstring) :
  simpleEncrypt text key = Some e ->
  List.length e = (4 * ((List.length text + 2) / 3))%nat
  /\ (e = [] <-> text = [])
  /\ Forall (fun c => base64Index c <> None \/ c = 61) e.
Proof.
  unfold simpleEncrypt, btoa. destruct (forallb _ _) eqn:Hb; [|discriminate].
  intros [= <-]. apply bytes_forallb in Hb.
  pose proof (sextets_below _ Hb) as Hsx.
  pose proof (xorFrom_length text key 0) as Hlen.
  destruct (encoding_shape (xorFrom 0 text key)) as [k Hk].
  rewrite Hlen in Hk.
  assert (Hl : List.length (map base64Char (sextets (xorFrom 0 text key))
                            ++ padding (xorFrom 0 text key))
               = (4 * ((List.length text + 2) / 3))%nat).
  { rewrite length_app, length_map.
    destruct Hk as [(E1 & -> & ->)|[(E1 & -> & ->)|(E1 & -> & ->)]];
      rewrite E1; cbn [List.length]; zify;
      Z.to_euclidean_division_equations; lia. }
  repeat split.
  - exact Hl.
  - intros E. rewrite E in Hl. cbn [List.length] in Hl.
    destruct text; [reflexivity|]. cbn [List.length] in Hl.
    exfalso. revert Hl. zify. Z.to_euclidean_division_equations. lia.
  - intros ->. reflexivity.
  - apply Forall_app. split.
    + apply Forall_map. eapply Forall_impl; [|exact Hsx].
      intros i Hi. left. cbn. rewrite (base64Index_Char i Hi). discriminate.
    + unfold padding. destruct (_ mod 3) as [|[|[]|]]; repeat constructor;
        right; reflexivity.
Qed.

(** X14: With the empty key, where [i % key.length] is [NaN], nothing is
    obfuscated: the result is the base64 encoding of the text itself. *)
Theorem empty_key_is_base64 (text : jsstring) :
  wellFormed text -> simpleEncrypt text [] = btoa text.
Proof.
  intros Hwf. unfold simpleEncrypt. f_equal.
  generalize 0. induction Hwf as [|c rest Hc Hrest IH]; intros i.
  - reflexivity.
  - cbn [xorFrom]. rewrite IH. f_equal.
    change (charCodeAt [] (rem i (N.of_nat (List.length (@nil N)))))
      with (@None N).
    unfold bitxor, fromCharCode. rewrite N.lxor_0_r.
    apply N.mod_small, Hc.
Qed.

(** X15: The hash of [getLocalEncryptionKey] is the polynomial hash
    [c0 * 31^(n-1) + ... + c(n-1)] reduced to a signed 32-bit integer. *)
Theorem hash_is_polynomial (s : jsstring) :
  hashOf s
  = toInt32 (fold_left (fun h c => 31 * h + Z.of_N c)%Z s 0%Z)
  /\ (- 2 ^ 31 <= hashOf s < 2 ^ 31)%Z.
Proof.
  assert (E : hashOf s
              = toInt32 (fold_left (fun h c => 31 * h + Z.of_N c)%Z s 0%Z))
    by (unfold hashOf; change 0%Z with (toInt32 0) at 1; apply hash_fold).
  split; [exact E|]. rewrite E. apply toInt32_range.
Qed.

(** X16: The local key is never empty, has at most six characters, all digits
    or lowercase letters, and reads back in base 36 as the absolute value of
    the hash. *)
Theorem key_shape (userAgent language timezone : jsstring) :
  let key := getLocalEncryptionKey userAgent language timezone in
  key <> []
  /\ Forall isKeyChar key
  /\ (List.length key <= 6)%nat
  /\ parseInt36 key
     = Z.to_N (Z.abs (hashOf (baseKey userAgent language timezone))).
Proof.
  cbv zeta. unfold getLocalEncryptionKey.
  set (h := hashOf (baseKey userAgent language timezone)).
  set (n := Z.to_N (Z.abs h)).
  assert (Hn : n < 2 ^ N.of_nat (N.to_nat (N.size n)))
    by (rewrite N2Nat.id; apply N.size_gt).
  destruct (digits36_spec _ n [] Hn) as (H1 & H2 & H3 & H4).
  unfold toString36. repeat split.
  - exact H3.
  - apply H2. constructor.
  - specialize (H4 5%nat). cbn [List.length] in H4.
    rewrite Nat.add_0_r in H4. apply H4.
    pose proof (hashOf_range (baseKey userAgent language timezone)) as Hr.
    fold h in Hr.
    change (2 ^ 31)%Z with 2147483648%Z in Hr.
    change (36 ^ N.of_nat 6) with 2176782336. unfold n. lia.
  - exact H1.
Qed.

(** X17: A text of code units up to [0xFF] always encrypts under the local key
    of any browser, and decrypts to itself under that key. *)
Theorem stored_key_round_trip
    (userAgent language timezone text : jsstring) :
  bytes text ->
  let key := getLocalEncryptionKey userAgent language timezone in
  exists e,
    simpleEncrypt text key = Some e /\ simpleDecrypt e key = text.
Proof.
  intros Ht. cbv zeta.
  set (key := getLocalEncryptionKey userAgent language timezone).
  assert (Hwf : wellFormed text).
  { unfold wellFormed. eapply Forall_impl; [|exact Ht]. cbn. intros c Hc. lia. }
  assert (Hk : bytes key).
  { unfold bytes. eapply Forall_impl;
      [|exact (localKey_chars userAgent language timezone)].
    unfold isKeyChar. intros c Hc'. lia. }
  apply (xorFrom_bytes text key Hk Hwf 0), bytes_forallb in Ht.
  assert (He : btoa (xorFrom 0 text key)
               = Some (map base64Char (sextets (xorFrom 0 text key))
                       ++ padding (xorFrom 0 text key)))
    by (unfold btoa; rewrite Ht; reflexivity).
  unfold simpleEncrypt, simpleDecrypt. rewrite He.
  eexists. split; [reflexivity|].
  rewrite (atob_btoa _ _ He). apply xorFrom_twice, Hwf.
Qed.

Lemma substring_ordered (s : jsstring) (a b : nat) :
  (a <= b)%nat -> (b <= List.length s)%nat ->
  substring s a b = firstn (b - a) (skipn a s).
Proof.
  intros Hab Hb. unfold substring.
  rewrite (Nat.min_l a), (Nat.min_l b) by lia.
  rewrite Nat.max_r, Nat.min_l by lia. reflexivity.
Qed.

(** X18: A key of at most eight characters is masked to [****]; a longer one to
    its first four characters, [****] and its last four characters, twelve
    in all. *)
Theorem masked_shape (apiKey : jsstring) :
  ((List.length apiKey <= 8)%nat -> getMaskedApiKey apiKey = units "****")
  /\ ((8 < List.length apiKey)%nat ->
      getMaskedApiKey apiKey
      = firstn 4 apiKey ++ units "****"
        ++ skipn (List.length apiKey - 4) apiKey
      /\ List.length (getMaskedApiKey apiKey) = 12%nat).
Proof.
  unfold getMaskedApiKey. split.
  - intros H. apply Nat.leb_le in H. rewrite H. reflexivity.
  - intros H. assert (E : (List.length apiKey <=? 8)%nat = false)
      by (apply Nat.leb_gt; exact H).
    rewrite E.
    rewrite (substring_ordered apiKey 0 4) by lia.
    rewrite (substring_ordered apiKey (List.length apiKey - 4)
               (List.length apiKey)) by lia.
    replace (List.length apiKey - (List.length apiKey - 4))%nat
      with 4%nat by lia.
    assert (Hs : List.length (skipn (List.length apiKey - 4) apiKey) = 4%nat)
      by (rewrite length_skipn; lia).
    rewrite (firstn_all2 (skipn (List.length apiKey - 4) apiKey)) by lia.
    cbn [skipn]. rewrite Nat.sub_0_r.
    split; [reflexivity|].
    rewrite !length_app, Hs, length_firstn.
    change (List.length (units "****")) with 4%nat. lia.
Qed.

End ObfuscationResults.

Ltac units_ok :=
  repeat first [apply Forall_nil | apply Forall_cons; [lia|]].

(** The round trip on [sk-live-0123456789] under the key [k3y]. *)
Lemma decrypt_encrypt_witness :
  JS.wellFormed (JS.units "sk-live-0123456789")
  /\ Obfuscation.simpleEncrypt (JS.units "sk-live-0123456789") (JS.units "k3y")
     = Some (JS.units "GFhUB1oPDh5JWgFKXwZPXAtA")
  /\ Obfuscation.simpleDecrypt (JS.units "GFhUB1oPDh5JWgFKXwZPXAtA")
       (JS.units "k3y")
     = JS.units "sk-live-0123456789".
Proof.
  assert (Hwf : JS.wellFormed (JS.units "sk-live-0123456789"))
    by (unfold JS.wellFormed; cbn; units_ok).
  assert (He : Obfuscation.simpleEncrypt
                 (JS.units "sk-live-0123456789") (JS.units "k3y")
               = Some (JS.units "GFhUB1oPDh5JWgFKXwZPXAtA"))
    by (vm_compute; reflexivity).
  split; [exact Hwf|]. split; [exact He|].
  exact (decrypt_encrypt _ _ _ Hwf He).
Defined.

(** A text holding the euro sign, code unit 8364, does not encrypt under
    the key [k3y]. *)
Lemma encrypt_succeeds_iff_bytes_witness :
  JS.bytes (JS.units "k3y") /\ JS.wellFormed (8364%N :: nil)
  /\ ~ JS.bytes (8364%N :: nil)
  /\ ~ Obfuscation.simpleEncrypt (8364%N :: nil) (JS.units "k3y") <> None.
Proof.
  assert (Hk : JS.bytes (JS.units "k3y"))
    by (unfold JS.bytes; cbn; units_ok).
  assert (Hwf : JS.wellFormed (8364%N :: nil))
    by (unfold JS.wellFormed; units_ok).
  assert (Hb : ~ JS.bytes (8364%N :: nil))
    by (unfold JS.bytes; intros H; apply Forall_inv in H; lia).
  split; [exact Hk|]. split; [exact Hwf|]. split; [exact Hb|].
  intros H. apply Hb.
  exact (proj1 (encrypt_succeeds_iff_bytes _ _ Hk Hwf) H).
Defined.

(** The eighteen characters of [sk-live-0123456789] encrypt to twenty-four. *)
Lemma encrypt_shape_witness :
  Obfuscation.simpleEncrypt (JS.units "sk-live-0123456789") (JS.units "k3y")
  = Some (JS.units "GFhUB1oPDh5JWgFKXwZPXAtA")
  /\ List.length (JS.units "GFhUB1oPDh5JWgFKXwZPXAtA")
     = (4 * ((List.length (JS.units "sk-live-0123456789") + 2) / 3))%nat.
Proof.
  assert (He : Obfuscation.simpleEncrypt
                 (JS.units "sk-live-0123456789") (JS.units "k3y")
               = Some (JS.units "GFhUB1oPDh5JWgFKXwZPXAtA"))
    by (vm_compute; reflexivity).
  split; [exact He|].
  exact (proj1 (encrypt_shape _ _ _ He)).
Defined.

(** [Man] under the empty key is [TWFu], its base64 encoding. *)
Lemma empty_key_is_base64_witness :
  JS.wellFormed (JS.units "Man")
  /\ Obfuscation.simpleEncrypt (JS.units "Man") nil = JS.btoa (JS.units "Man")
  /\ JS.btoa (JS.units "Man") = Some (JS.units "TWFu").
Proof.
  assert (Hwf : JS.wellFormed (JS.units "Man"))
    by (unfold JS.wellFormed; cbn; units_ok).
  split; [exact Hwf|]. split; [|vm_compute; reflexivity].
  exact (empty_key_is_base64 _ Hwf).
Defined.

(** The local key of a browser reporting [Mozilla/5.0], [en-US] and
    [Europe/Paris] is [v8a6wu], and [sk-live-0123456789] survives the round
    trip under it. *)
Lemma stored_key_round_trip_witness :
  JS.bytes (JS.units "sk-live-0123456789")
  /\ Obfuscation.getLocalEncryptionKey
       (JS.units "Mozilla/5.0") (JS.units "en-US") (JS.units "Europe/Paris")
     = JS.units "v8a6wu"
  /\ exists e,
       Obfuscation.simpleEncrypt (JS.units "sk-live-0123456789")
         (JS.units "v8a6wu") = Some e
       /\ Obfuscation.simpleDecrypt e (JS.units "v8a6wu")
          = JS.units "sk-live-0123456789".
Proof.
  assert (Hb : JS.bytes (JS.units "sk-live-0123456789"))
    by (unfold JS.bytes; cbn; units_ok).
  assert (Hk : Obfuscation.getLocalEncryptionKey
                 (JS.units "Mozilla/5.0") (JS.units "en-US")
                 (JS.units "Europe/Paris")
               = JS.units "v8a6wu")
    by (vm_compute; reflexivity).
  split; [exact Hb|]. split; [exact Hk|].
  rewrite <- Hk.
  exact (stored_key_round_trip
           (JS.units "Mozilla/5.0") (JS.units "en-US")
           (JS.units "Europe/Paris") _ Hb).
Defined.

(** [sk-live-0123456789] is shown as [sk-l****6789]. *)
Lemma masked_shape_witness :
  (8 < List.length (JS.units "sk-live-0123456789"))%nat
  /\ Obfuscation.getMaskedApiKey (JS.units "sk-live-0123456789")
     = JS.units "sk-l****6789".
Proof.
  assert (Hl : (8 < List.length (JS.units "sk-live-0123456789"))%nat)
    by (cbn; lia).
  split; [exact Hl|].
  exact (proj1 (proj2 (masked_shape (JS.units "sk-live-0123456789")) Hl)).
Defined.

(** ** The cached lookups of [server/binance.ts] *)

Section BinanceResults.

Import ListNotations JS Binance.

Context {num : Type} `{Number num}.

Local Open Scope Z_scope.

Lemma Map_get_set_same (V : Type) (m : Map V) (key : jsstring) (v : V) :
  Map_get (Map_set m key v) key = Some v.
Proof.
  unfold Map_get, Map_set. destruct (list_eq_dec N.eq_dec key key); congruence.
Qed.

Lemma Map_get_set_other (V : Type) (m : Map V) (key key' : jsstring) (v : V) :
  key' <> key -> Map_get (Map_set m key v) key' = Map_get m key'.
Proof.
  intros Hne. unfold Map_get, Map_set.
  destruct (list_eq_dec N.eq_dec key' key); congruence.
Qed.

(** An entry younger than sixty seconds is returned as it is: the request
    is not looked at and the cache is left alone. *)
Lemma price_cache_hit
    (priceCache : Map (CacheEntry (PriceData num))) (symbol : jsstring)
    (entry : CacheEntry (PriceData num))
    (now : Z) (response : Response num) (stamp1 stamp2 : Z) :
  Map_get priceCache (units "price:" ++ symbol) = Some entry ->
  now - timestamp entry < 60000 ->
  getBinancePrice priceCache symbol now response stamp1 stamp2
  = (priceCache, Return (price (data entry))).
Proof.
  intros Hc Hfresh. unfold getBinancePrice. cbv zeta. rewrite Hc.
  assert (E : (now - timestamp entry <? CACHE_DURATION) = true)
    by (apply Z.ltb_lt; exact Hfresh).
  rewrite E. reflexivity.
Qed.

(** X19: A price that was fetched is served again, unchanged and without a
    request, to every call for the same symbol in the next sixty seconds. *)
Theorem price_store_then_hit
    (priceCache : Map (CacheEntry (PriceData num))) (symbol : jsstring)
    (now : Z) (fetched : num) (stamp1 stamp2 : Z)
    (now' : Z) (response' : Response num) (stamp1' stamp2' : Z) :
  (forall entry,
      Map_get priceCache (units "price:" ++ symbol) = Some entry ->
      60000 <= now - timestamp entry) ->
  now' - stamp2 < 60000 ->
  let first :=
    getBinancePrice priceCache symbol now (Delivered fetched) stamp1 stamp2 in
  snd first = Return fetched
  /\ getBinancePrice (fst first) symbol now' response' stamp1' stamp2'
     = (fst first, Return fetched).
Proof.
  intros Hstale Hfresh. cbv zeta.
  set (key := units "price:" ++ symbol).
  set (entry' := {| data := {| symbol := symbol; price := fetched;
                               fetchedAt := stamp1 |};
                    timestamp := stamp2 |}).
  assert (E : getBinancePrice priceCache symbol now (Delivered fetched)
                stamp1 stamp2
              = (Map_set priceCache key entry', Return fetched)).
  { unfold getBinancePrice. cbv zeta. fold key.
    destruct (Map_get priceCache key) as [entry|] eqn:Hc; [|reflexivity].
    specialize (Hstale entry Hc).
    assert (E : (now - timestamp entry <? CACHE_DURATION) = false)
      by (apply Z.ltb_ge; exact Hstale).
    rewrite E. reflexivity. }
  rewrite E. cbn [fst snd]. split; [reflexivity|].
  apply (price_cache_hit _ symbol entry').
  - apply Map_get_set_same.
  - exact Hfresh.
Qed.

(** X20: A failed request never changes the cache; the call then throws exactly
    when the symbol was never cached, and otherwise returns the cached
    price, however old. *)
Theorem price_request_failure
    (priceCache : Map (CacheEntry (PriceData num))) (symbol : jsstring)
    (now stamp1 stamp2 : Z) :
  let call :=
    getBinancePrice priceCache symbol now Rejected stamp1 stamp2 in
  fst call = priceCache
  /\ (snd call = Throw
      <-> Map_get priceCache (units "price:" ++ symbol) = None)
  /\ (forall entry,
        Map_get priceCache (units "price:" ++ symbol) = Some entry ->
        snd call = Return (price (data entry))).
Proof.
  cbv zeta. unfold getBinancePrice. cbv zeta.
  destruct (Map_get priceCache (units "price:" ++ symbol)) as [entry|].
  - destruct (now - timestamp entry <? CACHE_DURATION); cbn [fst snd];
      (split; [reflexivity|]); (split; [split; discriminate|]);
      intros e [= <-]; reflexivity.
  - cbn [fst snd]. split; [reflexivity|]. split; [tauto|]. discriminate.
Qed.

(** X21: A call for one symbol leaves the entries of every other symbol as they
    were. *)
Theorem price_other_symbols_kept
    (priceCache : Map (CacheEntry (PriceData num))) (symbol other : jsstring)
    (now : Z) (response : Response num) (stamp1 stamp2 : Z) :
  other <> symbol ->
  Map_get
    (fst (getBinancePrice priceCache symbol now response stamp1 stamp2))
    (units "price:" ++ other)
  = Map_get priceCache (units "price:" ++ other).
Proof.
  intros Hne.
  assert (Hkey : units "price:" ++ other <> units "price:" ++ symbol)
    by (intros E; apply app_inv_head in E; contradiction).
  unfold getBinancePrice. cbv zeta.
  destruct (Map_get priceCache (units "price:" ++ symbol)) as [entry|];
    [destruct (now - timestamp entry <? CACHE_DURATION)|];
    destruct response; cbn [fst];
    try reflexivity; apply Map_get_set_other, Hkey.
Qed.

(** X22: The [price] procedure reports a failure only when the request failed
    and the symbol was never cached. *)
Theorem priceProcedure_failure
    (priceCache : Map (CacheEntry (PriceData num))) (symbol : jsstring)
    (now : Z) (response : Response num) (stamp1 stamp2 : Z)
    (error : jsstring) :
  snd (priceProcedure priceCache symbol now response stamp1 stamp2)
  = PriceFailure error ->
  response = Rejected
  /\ Map_get priceCache (units "price:" ++ symbol) = None
  /\ error = units "Failed to fetch price from Binance".
Proof.
  unfold priceProcedure, getBinancePrice. cbv zeta.
  destruct (Map_get priceCache (units "price:" ++ symbol)) as [entry|];
    [destruct (now - timestamp entry <? CACHE_DURATION)|];
    destruct response; cbn [snd]; try discriminate.
  intros [= <-]. repeat split.
Qed.

Lemma getBinanceFees_never_throws
    (envKey envSecret : jsstring)
    (feeCache : Map (CacheEntry (Json (FeeData num))))
    (clientApiKey clientApiSecret : option jsstring)
    (now : Z) (response : Response (Json (FeeData num))) (stamp : Z) :
  truthy clientApiKey = true -> truthy clientApiSecret = true ->
  snd (getBinanceFees envKey envSecret feeCache clientApiKey clientApiSecret
         now response stamp) <> Throw.
Proof.
  intros Hk Hs. unfold getBinanceFees. cbv zeta.
  destruct clientApiKey as [[|c1 k]|]; try discriminate.
  destruct clientApiSecret as [[|c2 s]|]; try discriminate.
  cbn [orElse truthy andb].
  destruct (Map_get feeCache (units "fees")) as [entry|];
    [destruct (now - timestamp entry <? CACHE_DURATION)|];
    destruct response; discriminate.
Qed.

(** X23: With a key and a secret, from the client or from the environment, the
    fees lookup never throws: a failed request is answered with the
    standard fees 0.0002 and 0.0004, even when older fees are cached. *)
Theorem fees_with_credentials
    (envKey envSecret : jsstring)
    (feeCache : Map (CacheEntry (Json (FeeData num))))
    (clientApiKey clientApiSecret : option jsstring)
    (now : Z) (response : Response (Json (FeeData num))) (stamp : Z) :
  orElse clientApiKey envKey <> [] ->
  orElse clientApiSecret envSecret <> [] ->
  let call :=
    getBinanceFees envKey envSecret feeCache clientApiKey clientApiSecret
      now response stamp in
  snd call <> Throw
  /\ (response = Rejected ->
      (forall entry,
          Map_get feeCache (units "fees") = Some entry ->
          60000 <= now - timestamp entry) ->
      call = (feeCache, Return (JsonValue (defaultFees stamp)))).
Proof.
  intros Hk Hs. cbv zeta. unfold getBinanceFees. cbv zeta.
  assert (Tk : truthy (Some (orElse clientApiKey envKey)) = true)
    by (destruct (orElse clientApiKey envKey); [contradiction|reflexivity]).
  assert (Ts : truthy (Some (orElse clientApiSecret envSecret)) = true)
    by (destruct (orElse clientApiSecret envSecret);
        [contradiction|reflexivity]).
  rewrite Tk, Ts. cbn [andb].
  destruct (Map_get feeCache (units "fees")) as [entry|] eqn:Hc.
  - destruct (now - timestamp entry <? CACHE_DURATION) eqn:E.
    + split; [discriminate|]. intros _ Hstale.
      specialize (Hstale entry eq_refl). apply Z.ltb_lt in E.
      unfold CACHE_DURATION in E. lia.
    + destruct response; (split; [discriminate|]); [discriminate|].
      reflexivity.
  - destruct response; (split; [discriminate|]); [discriminate|].
    reflexivity.
Qed.

(** X24: The fees cache has one entry for all callers: fees fetched for one
    pair of credentials are returned to every call of the next sixty
    seconds, whatever credentials it brings. *)
Theorem fees_cache_shared
    (envKey envSecret : jsstring)
    (feeCache : Map (CacheEntry (Json (FeeData num))))
    (key1 secret1 key2 secret2 : option jsstring)
    (now : Z) (fetched : Json (FeeData num)) (stamp : Z)
    (now' : Z) (response' : Response (Json (FeeData num))) (stamp' : Z) :
  (forall entry,
      Map_get feeCache (units "fees") = Some entry ->
      60000 <= now - timestamp entry) ->
  now' - stamp < 60000 ->
  let first :=
    getBinanceFees envKey envSecret feeCache key1 secret1
      now (Delivered fetched) stamp in
  snd first = Return fetched
  /\ snd (getBinanceFees envKey envSecret (fst first) key2 secret2
            now' response' stamp')
     = Return fetched.
Proof.
  intros Hstale Hfresh. cbv zeta.
  assert (E : getBinanceFees envKey envSecret feeCache key1 secret1
                now (Delivered fetched) stamp
              = (Map_set feeCache (units "fees")
                   {| data := fetched; timestamp := stamp |},
                 Return fetched)).
  { unfold getBinanceFees. cbv zeta.
    destruct (Map_get feeCache (units "fees")) as [entry|];
      [|reflexivity].
    specialize (Hstale entry eq_refl).
    assert (E : (now - timestamp entry <? CACHE_DURATION) = false)
      by (apply Z.ltb_ge; exact Hstale).
    rewrite E. reflexivity. }
  rewrite E. cbn [fst snd]. split; [reflexivity|].
  unfold getBinanceFees. cbv zeta. rewrite Map_get_set_same.
  cbn [timestamp data].
  assert (E' : (now' - stamp <? CACHE_DURATION) = true)
    by (apply Z.ltb_lt; exact Hfresh).
  rewrite E'. reflexivity.
Qed.

(** The [fees] procedure refuses a key without a secret and a secret
    without a key before it looks at the cache or sends a request. *)
Theorem feesProcedure_half_credentials
    (envKey envSecret : jsstring)
    (feeCache : Map (CacheEntry (Json (FeeData num))))
    (apiKey apiSecret : option jsstring)
    (now : Z) (response : Response (Json (FeeData num))) (stamp : Z) :
  truthy apiKey <> truthy apiSecret ->
  feesProcedure envKey envSecret feeCache apiKey apiSecret now response stamp
  = (feeCache,
     FeesFailure
       (units "API key and secret must both be provided or both be empty")).
Proof.
  intros Hne. unfold feesProcedure.
  destruct (truthy apiKey), (truthy apiSecret); try congruence; reflexivity.
Qed.

(** X25: Given both a key and a secret, the [fees] procedure fails only on
    fees that are [null], delivered by the request or cached in the last
    sixty seconds, and on a delivered [null] it does fail; a failed request
    with no fresh entry is answered with the standard commissions, and a
    delivered body that is not [null] with the commissions read from it. *)
Theorem feesProcedure_with_credentials
    (envKey envSecret : jsstring)
    (feeCache : Map (CacheEntry (Json (FeeData num))))
    (apiKey apiSecret : option jsstring)
    (now : Z) (response : Response (Json (FeeData num))) (stamp : Z) :
  truthy apiKey = true -> truthy apiSecret = true ->
  let reply :=
    snd (feesProcedure envKey envSecret feeCache apiKey apiSecret
           now response stamp) in
  let stale :=
    forall entry,
      Map_get feeCache (units "fees") = Some entry ->
      60000 <= now - timestamp entry in
  (forall error,
      reply = FeesFailure error ->
      error = units "Failed to fetch fees from Binance"
      /\ ((response = Delivered JsonNull /\ stale)
          \/ exists entry,
               Map_get feeCache (units "fees") = Some entry
               /\ now - timestamp entry < 60000
               /\ data entry = JsonNull))
  /\ (stale ->
      match response with
      | Delivered JsonNull =>
          reply = FeesFailure (units "Failed to fetch fees from Binance")
      | Delivered (JsonValue fees) =>
          reply = FeesSuccess (makerCommission fees) (takerCommission fees)
      | Rejected =>
          reply = FeesSuccess (Some (lit 2 10000)) (Some (lit 4 10000))
      end).
Proof.
  intros Hk Hs. cbv zeta. unfold feesProcedure. rewrite Hk, Hs.
  cbn [andb orb negb]. unfold getBinanceFees. cbv zeta.
  destruct apiKey as [[|c1 k]|]; try discriminate.
  destruct apiSecret as [[|c2 s]|]; try discriminate.
  cbn [orElse truthy andb].
  destruct (Map_get feeCache (units "fees")) as [entry|].
  - destruct (now - timestamp entry <? CACHE_DURATION) eqn:E.
    + apply Z.ltb_lt in E. unfold CACHE_DURATION in E. split.
      * intros error.
        destruct (data entry) as [|fees] eqn:Ed; cbn [snd]; [|discriminate].
        intros [= <-]. split; [reflexivity|]. right. exists entry.
        repeat split; [lia|exact Ed].
      * intros Hstale. specialize (Hstale entry eq_refl). lia.
    + apply Z.ltb_ge in E. unfold CACHE_DURATION in E. split.
      * intros error. destruct response as [[|fees]|]; cbn [snd];
          try discriminate.
        intros [= <-]. split; [reflexivity|]. left. split; [reflexivity|].
        intros entry' [= <-]. lia.
      * intros _. destruct response as [[|fees]|]; reflexivity.
  - split.
    + intros error. destruct response as [[|fees]|]; cbn [snd];
        try discriminate.
      intros [= <-]. split; [reflexivity|]. left. split; [reflexivity|].
      intros entry' Hentry. discriminate Hentry.
    + intros _. destruct response as [[|fees]|]; reflexivity.
Qed.

(** X30: An empty array in answer to the brackets request is cached like any
    other answer: the procedure fails on it, and goes on failing without a
    request for the next sixty seconds, even when a request would then
    succeed. *)
Theorem leverage_empty_answer_sticks
    (envKey envSecret : jsstring)
    (leverageCache : Map (CacheEntry (option (SymbolLeverageInfo num))))
    (symbol : jsstring) (key1 secret1 key2 secret2 : option jsstring)
    (now stamp now' stamp' : Z)
    (response' : Response (list (SymbolLeverageInfo num))) :
  truthy key1 = truthy secret1 -> truthy key2 = truthy secret2 ->
  (forall entry,
      Map_get leverageCache (units "leverage:" ++ symbol) = Some entry ->
      60000 <= now - timestamp entry) ->
  now' - stamp < 60000 ->
  let first :=
    leverageBracketsProcedure envKey envSecret leverageCache symbol
      key1 secret1 now (Delivered []) stamp in
  snd first
  = BracketsFailure (units "Failed to fetch leverage brackets from Binance")
  /\ leverageBracketsProcedure envKey envSecret (fst first) symbol
       key2 secret2 now' response' stamp'
     = (fst first,
        BracketsFailure
          (units "Failed to fetch leverage brackets from Binance")).
Proof.
  intros H1 H2 Hstale Hfresh. cbv zeta.
  set (key := units "leverage:" ++ symbol).
  assert (G1 : (truthy key1 && negb (truthy secret1)
                || negb (truthy key1) && truthy secret1) = false)
    by (rewrite H1; destruct (truthy secret1); reflexivity).
  assert (G2 : (truthy key2 && negb (truthy secret2)
                || negb (truthy key2) && truthy secret2) = false)
    by (rewrite H2; destruct (truthy secret2); reflexivity).
  assert (E : getLeverageBrackets envKey envSecret leverageCache symbol
                key1 secret1 now (Delivered []) stamp
              = (Map_set leverageCache key
                   {| data := None; timestamp := stamp |},
                 Return None)).
  { unfold getLeverageBrackets. cbv zeta. fold key.
    destruct (Map_get leverageCache key) as [entry|] eqn:Hc; [|reflexivity].
    specialize (Hstale entry Hc).
    assert (E : (now - timestamp entry <? CACHE_DURATION) = false)
      by (apply Z.ltb_ge; exact Hstale).
    rewrite E. reflexivity. }
  unfold leverageBracketsProcedure. cbv zeta. rewrite G1, G2, E.
  cbn [fst snd]. split; [reflexivity|].
  unfold getLeverageBrackets. cbv zeta. fold key.
  rewrite Map_get_set_same. cbn [timestamp data].
  assert (E' : (now' - stamp <? CACHE_DURATION) = true)
    by (apply Z.ltb_lt; exact Hfresh).
  rewrite E'. reflexivity.
Qed.

End BinanceResults.

(** ** The comparison panel *)

Section PanelResults.

Import ListNotations JS PositionComparison.

(** X26: With pairwise distinct identifiers, deleting takes away the position of
    the given identifier and no other, and never the last one left. *)
Theorem deletePosition_distinct_ids
    (num : Type) (positions : list (Position.Position num)) (id : jsstring) :
  NoDup (map Position.id positions) -> positions <> [] ->
  deletePosition positions id <> []
  /\ ((1 < List.length positions)%nat ->
      (forall p, In p (deletePosition positions id)
                 <-> In p positions /\ Position.id p <> id)
      /\ (In id (map Position.id positions) ->
          List.length (deletePosition positions id)
          = (List.length positions - 1)%nat)).
Proof.
  intros Hnd Hne. unfold deletePosition.
  set (keep := fun p : Position.Position num =>
                 if list_eq_dec N.eq_dec (Position.id p) id
                 then false else true).
  assert (Hkeep : forall p, keep p = true <-> Position.id p <> id).
  { intros p. unfold keep.
    destruct (list_eq_dec N.eq_dec (Position.id p) id); split; congruence. }
  assert (Hlen : forall l : list (Position.Position num),
             NoDup (map Position.id l) ->
             (List.length l <= S (List.length (filter keep l)))%nat
             /\ (In id (map Position.id l) ->
                 List.length l = S (List.length (filter keep l)))).
  { induction l as [|p l IH]; intros Hl; cbn [map filter List.length In].
    - split; [lia|tauto].
    - inversion_clear Hl as [|? ? Hnotin Hl'].
      destruct (IH Hl') as [IH1 IH2].
      destruct (keep p) eqn:E.
      + apply Hkeep in E. cbn [List.length]. split; [lia|].
        intros [Hp|Hin]; [congruence|]. rewrite (IH2 Hin). reflexivity.
      + assert (Hp : Position.id p = id).
        { destruct (list_eq_dec N.eq_dec (Position.id p) id) as [e|n];
            [exact e|]. apply Hkeep in n. congruence. }
        assert (Hall : filter keep l = l).
        { apply Base64Facts.filter_all. apply Forall_forall. intros q Hq.
          apply Hkeep. intros Hq'. apply Hnotin. rewrite Hp, <- Hq'.
          apply in_map, Hq. }
        rewrite Hall. split; [lia|reflexivity]. }
  destruct (1 <? List.length positions)%nat eqn:E.
  - apply Nat.ltb_lt in E. destruct (Hlen positions Hnd) as [H1 H2].
    split.
    + intros Hnil. rewrite Hnil in H1. cbn in H1. lia.
    + intros _. split.
      * intros p. rewrite filter_In, Hkeep. reflexivity.
      * intros Hin. rewrite (H2 Hin). lia.
  - apply Nat.ltb_ge in E. split; [exact Hne|]. intros H. lia.
Qed.

Local Open Scope R_scope.

Lemma fold_left_sum (A : Type) (f : A -> R) (l : list A) :
  forall a, fold_left (fun sum r => sum + f r) l a
            = a + fold_left (fun sum r => sum + f r) l 0.
Proof.
  induction l as [|x l IH]; intros a; cbn [fold_left]; [lra|].
  rewrite (IH (a + f x)), (IH (0 + f x)). lra.
Qed.

(** A sum of terms that each lie between [lo * w] and [hi * w], for
    weights [w] that are positive. *)
Lemma weighted_sum_bounds (A : Type) (w v : A -> R) (lo hi : R)
    (l : list A) :
  (forall x, In x l -> 0 < w x /\ lo * w x <= v x <= hi * w x) ->
  0 <= fold_left (fun sum r => sum + w r) l 0
  /\ (l <> [] -> 0 < fold_left (fun sum r => sum + w r) l 0)
  /\ lo * fold_left (fun sum r => sum + w r) l 0
     <= fold_left (fun sum r => sum + v r) l 0
     <= hi * fold_left (fun sum r => sum + w r) l 0.
Proof.
  induction l as [|x l IH]; intros Hl; cbn [fold_left].
  - repeat split; try lra. congruence.
  - destruct (Hl x (or_introl eq_refl)) as [Hw Hv].
    destruct IH as (IH0 & _ & IH1); [intros y Hy; apply Hl; right; exact Hy|].
    rewrite (fold_left_sum _ w l (0 + w x)).
    rewrite (fold_left_sum _ v l (0 + v x)).
    repeat split; try intros _; nra.
Qed.

(** X27: The margins being positive, the profit percentage of the whole panel
    lies between the smallest and the largest profit percentage of its
    positions. *)
Theorem totalProfitPercent_between
    (positions : list (Position.Position R)) (currentPrice lo hi : R) :
  positions <> [] ->
  (forall pos, In pos positions -> 0 < Position.margin pos) ->
  (forall r, In r (results positions currentPrice) ->
             lo <= profitPercent r <= hi) ->
  lo <= totalProfitPercent (results positions currentPrice) <= hi.
Proof.
  intros Hne Hm Hb.
  set (rs := results positions currentPrice) in *.
  assert (Hrow : forall r, In r rs ->
             0 < Position.margin (position r)
             /\ lo / 100 * Position.margin (position r)
                <= profit r
                <= hi / 100 * Position.margin (position r)).
  { intros r Hr. specialize (Hb r Hr).
    unfold rs, results in Hr. apply in_map_iff in Hr.
    destruct Hr as (pos & <- & Hpos). specialize (Hm pos Hpos).
    cbn [position profit profitPercent] in *.
    split; [exact Hm|].
    change (profitPercentAtPrice (calculateContract (paramsOf pos))
              currentPrice)
      with (profitAtPrice (calculateContract (paramsOf pos)) currentPrice
            / Position.margin pos * 100) in Hb.
    set (x := profitAtPrice (calculateContract (paramsOf pos)) currentPrice)
      in *.
    set (m := Position.margin pos) in *.
    set (y := x / m * 100) in *.
    assert (Hx : x = y * m / 100) by (unfold y; field; lra).
    assert (H1 : 0 <= (y - lo) * m) by (apply Rmult_le_pos; lra).
    assert (H2 : 0 <= (hi - y) * m) by (apply Rmult_le_pos; lra).
    rewrite Hx. split; lra. }
  destruct (weighted_sum_bounds _ (fun r => Position.margin (position r))
              profit (lo / 100) (hi / 100) rs Hrow) as (_ & Hpos & Hsum).
  assert (Hrs : rs <> []).
  { unfold rs, results. destruct positions; [congruence|discriminate]. }
  specialize (Hpos Hrs).
  unfold totalProfitPercent, totalProfit, totalMargin.
  change (lit 0 1) with 0. change (lit 100 1) with 100.
  change (@add R _) with Rplus. change (@div R _) with Rdiv.
  change (@mul R _) with Rmult.
  set (M := fold_left (fun sum r => sum + Position.margin (position r)) rs 0)
    in *.
  set (P := fold_left (fun sum r => sum + profit r) rs 0) in *.
  unfold gtb, ideal_order. destruct (Rlt_dec 0 M) as [_|Hn]; [|contradiction].
  assert (HP : P / M * 100 * M = P * 100) by (field; lra).
  split.
  - apply (Rmult_le_reg_r M); [exact Hpos|]. rewrite HP. nra.
  - apply (Rmult_le_reg_r M); [exact Hpos|]. rewrite HP. nra.
Qed.

(** X28: The average liquidation price lies between the lowest and the highest
    liquidation price of the positions. *)
Theorem avgLiquidationPrice_between
    (positions : list (Position.Position R)) (currentPrice lo hi : R) :
  positions <> [] ->
  (forall r, In r (results positions currentPrice) ->
             lo <= liquidationPrice (result r) <= hi) ->
  lo <= avgLiquidationPrice (results positions currentPrice) <= hi.
Proof.
  intros Hne Hb.
  set (rs := results positions currentPrice) in *.
  assert (Hrow : forall r, In r rs ->
             0 < 1 /\ lo * 1 <= liquidationPrice (result r) <= hi * 1)
    by (intros r Hr; specialize (Hb r Hr); lra).
  destruct (weighted_sum_bounds _ (fun _ => 1)
              (fun r => liquidationPrice (result r)) lo hi rs Hrow)
    as (_ & Hpos & Hsum).
  assert (Hrs : rs <> []).
  { unfold rs, results. destruct positions; [congruence|discriminate]. }
  specialize (Hpos Hrs).
  assert (Hcount : forall l : list (PositionComparison.Row R),
             fold_left (fun sum _ => sum + 1) l 0 = INR (List.length l)).
  { induction l as [|x l IH]; [reflexivity|].
    cbn [fold_left]. rewrite fold_left_sum, IH.
    change (List.length (x :: l)) with (S (List.length l)).
    rewrite S_INR. lra. }
  rewrite Hcount in Hpos, Hsum.
  unfold avgLiquidationPrice.
  assert (Hl : (0 <? List.length rs)%nat = true).
  { apply Nat.ltb_lt. destruct rs; [congruence|cbn; lia]. }
  rewrite Hl.
  change (lit 0 1) with 0.
  change (@add R _) with Rplus. change (@div R _) with Rdiv.
  assert (Hn : lit (Z.of_nat (List.length rs)) 1 = INR (List.length rs))
    by (cbn; symmetry; apply INR_IZR_INZ).
  rewrite Hn.
  set (n := INR (List.length rs)) in *.
  set (S := fold_left (fun sum r => sum + liquidationPrice (result r)) rs 0)
    in *.
  assert (HS : S / n * n = S) by (field; lra).
  split; apply (Rmult_le_reg_r n); try exact Hpos; rewrite HS; lra.
Qed.

(** X29: A panel holding one position with a positive margin shows the figures
    of the calculator for that position. *)
Theorem single_position_totals (pos : Position.Position R) (currentPrice : R) :
  0 < Position.margin pos ->
  let r := calculateContract (paramsOf pos) in
  let rs := results [pos] currentPrice in
  totalMargin rs = Position.margin pos
  /\ totalPositionSize rs = positionSize r
  /\ totalProfit rs = profitAtPrice r currentPrice
  /\ totalProfitPercent rs = profitPercentAtPrice r currentPrice
  /\ avgLiquidationPrice rs = liquidationPrice r.
Proof.
  intros Hm. cbv zeta.
  unfold totalProfitPercent, avgLiquidationPrice, totalMargin,
    totalPositionSize, totalProfit, results.
  cbn [map fold_left List.length Nat.ltb Nat.leb position result profit
       profitPercent].
  change (lit 0 1) with 0. change (lit 100 1) with 100.
  change (lit (Z.of_nat 1) 1) with 1.
  change (@add R _) with Rplus. change (@div R _) with Rdiv.
  change (@mul R _) with Rmult.
  rewrite !Rplus_0_l.
  unfold gtb, ideal_order.
  destruct (Rlt_dec 0 (Position.margin pos)) as [_|Hn]; [|contradiction].
  repeat split.
  unfold Rdiv. rewrite Rinv_1. ring.
Qed.

End PanelResults.

(** ** The cached lookups and the panel at concrete inputs *)

Section ConcreteRuns.

Import ListNotations JS Binance PositionComparison.

(** 60000 fetched at time 1000 into an empty cache is what a call at time
    50000 gets, whatever its request would have given. *)
Lemma price_store_then_hit_witness :
  (50000 - 1000 < 60000)%Z
  /\ getBinancePrice
       (fst (getBinancePrice Map_clear (units "BTCUSDT") 1000
               (Delivered 60000%float) 1000 1000))
       (units "BTCUSDT") 50000 (Delivered 61000%float) 50001 50002
     = (fst (getBinancePrice Map_clear (units "BTCUSDT") 1000
               (Delivered 60000%float) 1000 1000),
        Return 60000%float).
Proof.
  split; [lia|].
  refine (proj2 (price_store_then_hit Map_clear (units "BTCUSDT") 1000
                   60000%float 1000 1000 50000 (Delivered 61000%float)
                   50001 50002 _ _)).
  - intros entry Hentry. discriminate Hentry.
  - lia.
Defined.

(** Fetching [ETHUSDT] leaves the entry of [BTCUSDT] alone. *)
Lemma price_other_symbols_kept_witness :
  Map_get
    (fst (getBinancePrice exampleCache (units "ETHUSDT") 2000
            (Delivered 3000%float) 2000 2000))
    (units "price:BTCUSDT")
  = Some exampleEntry.
Proof.
  refine (eq_trans
            (price_other_symbols_kept exampleCache (units "ETHUSDT")
               (units "BTCUSDT") 2000 (Delivered 3000%float) 2000 2000 _) _).
  - discriminate.
  - apply Map_get_set_same.
Defined.

(** With an empty cache a failed request makes the [price] procedure
    report the failure. *)
Lemma priceProcedure_failure_witness :
  snd (priceProcedure (num := float) Map_clear (units "BTCUSDT") 1000
         Rejected 1000 1000)
  = PriceFailure (units "Failed to fetch price from Binance")
  /\ Map_get (V := CacheEntry (PriceData float)) Map_clear
       (units "price:BTCUSDT") = None.
Proof.
  split; [reflexivity|].
  exact (proj1 (proj2 (priceProcedure_failure (num := float) Map_clear
                         (units "BTCUSDT") 1000 Rejected 1000 1000
                         (units "Failed to fetch price from Binance")
                         eq_refl))).
Defined.

(** With a key and a secret in the environment, a failed request is
    answered with the standard fees although older fees are cached. *)
Lemma fees_with_credentials_witness :
  getBinanceFees (units "key") (units "secret")
    (Map_set Map_clear (units "fees") (mkCacheEntry (JsonValue exampleFees) 1000))
    None None 90000 Rejected 90001
  = (Map_set Map_clear (units "fees") (mkCacheEntry (JsonValue exampleFees) 1000),
     Return (JsonValue (defaultFees 90001))).
Proof.
  refine (proj2 (fees_with_credentials (units "key") (units "secret")
                   (Map_set Map_clear (units "fees")
                      (mkCacheEntry (JsonValue exampleFees) 1000))
                   None None 90000 Rejected 90001 _ _) eq_refl _).
  - discriminate.
  - discriminate.
  - intros entry Hentry. rewrite Map_get_set_same in Hentry.
    injection Hentry as <-. cbn. lia.
Defined.

(** Fees fetched for one pair of credentials are what a caller with
    another pair gets thirty seconds later. *)
Lemma fees_cache_shared_witness :
  (31000 - 1000 < 60000)%Z
  /\ snd (getBinanceFees nil nil
            (fst (getBinanceFees nil nil Map_clear
                    (Some (units "alice-key")) (Some (units "alice-secret"))
                    1000 (Delivered (JsonValue exampleFees)) 1000))
            (Some (units "bob-key")) (Some (units "bob-secret"))
            31000 Rejected 31000)
     = Return (JsonValue exampleFees).
Proof.
  split; [lia|].
  refine (proj2 (fees_cache_shared nil nil Map_clear
                   (Some (units "alice-key")) (Some (units "alice-secret"))
                   (Some (units "bob-key")) (Some (units "bob-secret"))
                   1000 (JsonValue exampleFees) 1000 31000 Rejected 31000
                   _ _)).
  - intros entry Hentry. discriminate Hentry.
  - lia.
Defined.

(** A key without a secret is refused. *)
Lemma feesProcedure_half_credentials_witness :
  feesProcedure (num := float) nil nil Map_clear (Some (units "key")) None
    1000 (Delivered (JsonValue exampleFees)) 1000
  = (Map_clear,
     FeesFailure
       (units "API key and secret must both be provided or both be empty")).
Proof.
  apply (feesProcedure_half_credentials (num := float)). discriminate.
Defined.

(** A key and a secret and an empty cache: a body [null] makes the
    procedure fail. *)
Lemma feesProcedure_with_credentials_witness :
  snd (feesProcedure (num := float) nil nil Map_clear
         (Some (units "key")) (Some (units "secret"))
         1000 (Delivered JsonNull) 1000)
  = FeesFailure (units "Failed to fetch fees from Binance").
Proof.
  refine (proj2 (feesProcedure_with_credentials (num := float) nil nil
                   Map_clear (Some (units "key")) (Some (units "secret"))
                   1000 (Delivered JsonNull) 1000 eq_refl eq_refl) _).
  intros entry Hentry. discriminate Hentry.
Defined.

(** An empty answer for [BTCUSDT] at time 1000 makes the call at time
    31000 fail although its own request would deliver brackets. *)
Lemma leverage_empty_answer_sticks_witness :
  let info :=
    mkSymbolLeverageInfo (units "BTCUSDT")
      [mkLeverageBracket 1%float 125%float 50000%float 0%float 0.004%float
         0%float] in
  (31000 - 1000 < 60000)%Z
  /\ snd (leverageBracketsProcedure nil nil
            (fst (leverageBracketsProcedure nil nil Map_clear
                    (units "BTCUSDT") None None 1000 (Delivered []) 1000))
            (units "BTCUSDT") None None 31000 (Delivered [info]) 31000)
     = BracketsFailure
         (units "Failed to fetch leverage brackets from Binance").
Proof.
  cbv zeta. split; [lia|].
  refine (f_equal snd
            (proj2 (leverage_empty_answer_sticks (num := float) nil nil
                      Map_clear (units "BTCUSDT") None None None None
                      1000 1000 31000 31000 _ eq_refl eq_refl _ _))).
  - intros entry Hentry. discriminate Hentry.
  - lia.
Defined.

(** Deleting position [1] of the two initial positions leaves position
    [2]. *)
Lemma deletePosition_distinct_ids_witness :
  NoDup (map Position.id (initialPositions (num := R)))
  /\ deletePosition (initialPositions (num := R)) (units "1") <> [].
Proof.
  assert (Hnd : NoDup (map Position.id (initialPositions (num := R)))).
  { cbn. repeat constructor; cbn; intuition discriminate. }
  split; [exact Hnd|].
  refine (proj1 (deletePosition_distinct_ids R initialPositions (units "1")
                   Hnd _)).
  discriminate.
Defined.

Local Open Scope R_scope.

Lemma initial_results (r : Row R) :
  In r (results initialPositions 62000) ->
  (9 <= profitPercent r <= 17)
  /\ (40300 <= liquidationPrice (result r) <= 48300).
Proof.
  intros [<-|[<-|[]]]; cbn [profitPercent result]; ideal_unfold;
    cbv [paramsOf initialPositions Position.openPrice Position.margin
         Position.leverage Position.positionType Position.marginMode lit
         Ideal.number Ideal.literal];
    lra.
Qed.

(** At 62000 the two initial positions gain between 9 and 17 percent, and
    so does the panel as a whole. *)
Lemma totalProfitPercent_between_witness :
  9 <= totalProfitPercent (results (initialPositions (num := R)) 62000)
  <= 17.
Proof.
  apply totalProfitPercent_between.
  - discriminate.
  - intros pos [<-|[<-|[]]]; cbn; lra.
  - intros r Hr. apply (initial_results r Hr).
Defined.

(** The two initial positions are liquidated at 48300 and 40300, and the
    average shown lies between. *)
Lemma avgLiquidationPrice_between_witness :
  40300 <= avgLiquidationPrice (results (initialPositions (num := R)) 62000)
  <= 48300.
Proof.
  apply avgLiquidationPrice_between.
  - discriminate.
  - intros r Hr. apply (initial_results r Hr).
Defined.

(** The first initial position alone. *)
Lemma single_position_totals_witness :
  let pos :=
    Position.mkPosition (units "1") (units "one") 60000 20 5 long isolated in
  0 < Position.margin pos
  /\ totalProfitPercent (results [pos] 62000)
     = profitPercentAtPrice (calculateContract (paramsOf pos)) 62000.
Proof.
  cbv zeta. split; [cbn; lra|].
  refine (proj1 (proj2 (proj2 (proj2
            (single_position_totals
               (Position.mkPosition (units "1") (units "one") 60000 20 5
                  long isolated) 62000 _))))).
  cbn; lra.
Defined.

End ConcreteRuns.
